(** * genvfs: the VFS operation-table generator of libwasi

    A shallow embedding of [libwasi/genvfs.py] and the properties of its
    parser and of its four emission modes.

    Python [str] values are sequences of Unicode code points; they are
    modelled as lists of code points ([N]).  The output sink handed to
    [process] is the text written to it so far, the file system is a finite
    map from file names to the text the files hold. *)

From stdpp Require Import gmap strings list fin_maps.
From Stdlib Require Import NArith Ascii.

Local Open Scope N_scope.

(** * The program

    ** Strings *)

Abbreviation str := (list N).

(** A Python string literal, given as a Rocq string of ASCII characters. *)
Fixpoint lit (x : string) : str :=
  match x with
  | EmptyString => []
  | String a r => N_of_ascii a :: lit r
  end.

#[global] Arguments lit : simpl never.

Definition TAB : str := [9].

Definition NL : str := [10].

Definition DQUOTE : str := [34].

(** ** The string methods the script uses *)

Module Py.

(** [s.replace(c, '')] for a one-character [c]. *)
Fixpoint remove_char (c : N) (s : str) : str :=
  match s with
  | [] => []
  | x :: r => if x =? c then remove_char c r else x :: remove_char c r
  end.

(** [s.split(sep)] for a one-character separator: one more piece than
    there are separators, the empty string gives one empty piece. *)
Fixpoint split (sep : N) (s : str) : list str :=
  match s with
  | [] => [[]]
  | x :: r =>
      if x =? sep then [] :: split sep r
      else match split sep r with
           | h :: t => (x :: h) :: t
           | [] => [[x]]
           end
  end.

(** [str.isspace] on one code point (CPython's [_PyUnicode_IsWhitespace]). *)
Definition isspace (c : N) : bool :=
  ((9 <=? c) && (c <=? 13)) || ((28 <=? c) && (c <=? 32))
  || (c =? 133) || (c =? 160) || (c =? 5760)
  || ((8192 <=? c) && (c <=? 8202))
  || (c =? 8232) || (c =? 8233) || (c =? 8239) || (c =? 8287)
  || (c =? 12288).

Fixpoint lstrip (s : str) : str :=
  match s with
  | [] => []
  | x :: r => if isspace x then lstrip r else s
  end.

Definition rstrip (s : str) : str := rev (lstrip (rev s)).

(** [s.strip()] *)
Definition strip (s : str) : str := rstrip (lstrip s).

(** [sep.join(l)] *)
Fixpoint join (sep : str) (l : list str) : str :=
  match l with
  | [] => []
  | [x] => x
  | x :: r => x ++ sep ++ join sep r
  end.

(** [s.startswith(p)] *)
Fixpoint startswith (p s : str) : bool :=
  match p, s with
  | [], _ => true
  | _ :: _, [] => false
  | a :: p', b :: s' => (a =? b) && startswith p' s'
  end.

(** Truth value of a string: [not s] holds for the empty string only. *)
Definition truthy (s : str) : bool :=
  match s with [] => false | _ :: _ => true end.

End Py.

(** ** The two compiled patterns *)

Module Re.

Definition lower (c : N) : bool := (97 <=? c) && (c <=? 122).

Definition digit (c : N) : bool := (48 <=? c) && (c <=? 57).

(** The class [[_a-z0-9]]. *)
Definition word (c : N) : bool := (c =? 95) || lower c || digit c.

Fixpoint span_word (s : str) : str * str :=
  match s with
  | [] => ([], [])
  | x :: r =>
      if word x then let '(run, rest) := span_word r in (x :: run, rest)
      else ([], s)
  end.

(** [$] without the MULTILINE flag: the end of the string, or just before
    a line break that ends the string. *)
Definition dollar (s : str) : bool :=
  match s with
  | [] => true
  | [c] => c =? 10
  | _ => false
  end.

(** [[a-z][_a-z0-9]*$] tried at the start of [s]; the text matched.  The
    star is greedy and a shorter run is followed by a word character, where
    [$] cannot hold, so only the longest run can succeed. *)
Definition name_here (s : str) : option str :=
  match s with
  | [] => None
  | c :: r =>
      if lower c then
        let '(run, rest) := span_word r in
        if dollar rest then Some (c :: run) else None
      else None
  end.

(** [re_name.search(s)], then [m.group()]: the leftmost match. *)
Fixpoint re_name_search (s : str) : option str :=
  match name_here s with
  | Some g => Some g
  | None =>
      match s with
      | [] => None
      | _ :: r => re_name_search r
      end
  end.

Definition path_info_lit : str := lit "struct path_info *".

(** [struct path_info \*([a-z][_a-z0-9]*$)] tried at the start of [s];
    group 1. *)
Definition path_info_here (s : str) : option str :=
  if Py.startswith path_info_lit s
  then name_here (drop (length path_info_lit) s)
  else None.

(** [re_path_info.search(s)], then [m.group(1)]. *)
Fixpoint re_path_info_search (s : str) : option str :=
  match path_info_here s with
  | Some g => Some g
  | None =>
      match s with
      | [] => None
      | _ :: r => re_path_info_search r
      end
  end.

End Re.

(** ** Exceptions and the state-and-exception monad *)

Inductive exn_class : Set :=
  | ValueError
  | AttributeError
  | IndexError
  | FileNotFoundError.

(** An uncaught exception, as the interpreter's traceback reports it: its
    class and the line of [genvfs.py] that raised it. *)
Record exn : Set := Raised { exn_type : exn_class; exn_lineno : nat }.

(** A computation over a state [S] (the text of the sink, or the file
    system) that returns a value or raises; the state reached is kept in
    both cases. *)
Definition M (S A : Type) : Type := S → S * (exn + A).

Definition ret {S A} (a : A) : M S A := λ s, (s, inr a).

Definition raise {S A} (e : exn) : M S A := λ s, (s, inl e).

Definition bind {S A B} (m : M S A) (k : A → M S B) : M S B :=
  λ s, match m s with
       | (s', inr a) => k a s'
       | (s', inl e) => (s', inl e)
       end.

Notation "'do' x <- m ; k" := (bind m (λ x, k))
  (at level 10, x name, m at level 100, k at level 200,
   format "'[v' 'do'  x  <-  m ; '/' k ']'").

Notation "'do' ' p <- m ; k" := (bind m (λ x, match x with p => k end))
  (at level 10, p pattern, m at level 100, k at level 200,
   format "'[v' 'do'  ' p  <-  m ; '/' k ']'").

Notation "m >>> k" := (bind m (λ _, k))
  (at level 190, right associativity, format "'[v' m  >>> '/' k ']'").

(** [for x in l: body(x)] *)
Fixpoint for_each {S A} (l : list A) (body : A → M S unit) : M S unit :=
  match l with
  | [] => ret tt
  | x :: r => body x >>> for_each r body
  end.

(** A loop that appends one computed element per iteration. *)
Fixpoint collect {S A B} (l : list A) (body : A → M S B) : M S (list B) :=
  match l with
  | [] => ret []
  | x :: r => do y <- body x; do ys <- collect r body; ret (y :: ys)
  end.

(** [a, b = l]: the list must hold exactly two values. *)
Definition unpack2 {S A} (lineno : nat) (l : list A) : M S (A * A) :=
  match l with
  | [a; b] => ret (a, b)
  | _ => raise (Raised ValueError lineno)
  end.

(** [m.group()] on the result of a search, [None] when nothing matched. *)
Definition group {S} (lineno : nat) (m : option str) : M S str :=
  match m with
  | Some g => ret g
  | None => raise (Raised AttributeError lineno)
  end.

(** [l[0]] *)
Definition index0 {S A} (lineno : nat) (l : list A) : M S A :=
  match l with
  | x :: _ => ret x
  | [] => raise (Raised IndexError lineno)
  end.

(** [print(x, file=out)] *)
Definition print (x : str) : M str unit := λ out, (out ++ x ++ NL, inr tt).

(** ** The generator *)

Definition filename : string := "wasi_vfs.def".

Inductive Mode : Set :=
  | VfsPrototype
  | VfsStructDecl
  | VfsStructDefine
  | VfsDefine.

Definition Mode_eqb (a b : Mode) : bool :=
  match a, b with
  | VfsPrototype, VfsPrototype
  | VfsStructDecl, VfsStructDecl
  | VfsStructDefine, VfsStructDefine
  | VfsDefine, VfsDefine => true
  | _, _ => false
  end.

Definition when {S} (b : bool) (m : M S unit) : M S unit :=
  if b then m else ret tt.

Definition comma : N := 44.

Definition semicolon : N := 59.

Definition lparen : N := 40.

Definition rparen : N := 41.

(** The body of [for line in lines:] in [process]. *)
Definition process_line (mode : Mode) (prefix qual : str) (line : str)
  : M str unit :=
  let line := Py.strip line in
  if negb (Py.truthy line) then ret tt else
  do '(line, _) <- unpack2 35 (Py.split rparen line);
  do '(fn, args) <- unpack2 36 (Py.split lparen line);
  let args := Py.split comma args in
  let args_sig := map Py.strip args in
  do args_name <-
    collect args (λ a, let a := Py.strip a in group 45 (Re.re_name_search a));
  let path_info_arg := omap Re.re_path_info_search args in
  match mode with
  | VfsStructDecl =>
      print (TAB ++ lit "int (*" ++ fn ++ lit ")("
             ++ Py.join (lit ", ") args_sig ++ lit ");")
  | VfsStructDefine =>
      print (TAB ++ lit "." ++ fn ++ lit " = " ++ prefix ++ fn ++ lit ",")
  | VfsPrototype =>
      print (lit "int " ++ prefix ++ fn ++ lit "("
             ++ Py.join (lit ", ") args_sig ++ lit ");")
  | VfsDefine =>
      print (lit "int" ++ NL ++ lit "wasi_vfs_" ++ fn ++ lit "("
             ++ Py.join (lit ", ") args_sig ++ lit ")") >>>
      print (lit "{") >>>
      (if Py.startswith (lit "path_") fn then
         for_each (tail path_info_arg) (λ a,
           do ref <- index0 63 path_info_arg;
           print (TAB ++ lit "if (check_xdev(" ++ ref ++ lit ", " ++ a
                  ++ lit ")) {") >>>
           print (TAB ++ TAB ++ lit "return EXDEV;") >>>
           print (TAB ++ lit "}")) >>>
         do ref <- index0 66 path_info_arg;
         print (TAB ++ lit "const struct wasi_vfs_ops *ops = path_vfs_ops("
                ++ ref ++ lit ");")
       else
         print (TAB
                ++ lit "const struct wasi_vfs_ops *ops = fdinfo_vfs_ops(fdinfo);"))
      >>>
      print (TAB ++ lit "return ops->" ++ fn ++ lit "("
             ++ Py.join (lit ", ") args_name ++ lit ");") >>>
      print (lit "}")
  end.

(** [process(mode, out, prefix, qual)]; [lines] is the module's global. *)
Definition process (lines : list str) (mode : Mode) (prefix qual : str)
  : M str unit :=
  print (lit "/* this file is generated by genvfs.sh */") >>>
  print (lit "#include " ++ DQUOTE ++ lit "wasi_vfs_types.h" ++ DQUOTE) >>>
  when (Mode_eqb mode VfsStructDecl) (print (lit "struct wasi_vfs_ops {")) >>>
  when (Mode_eqb mode VfsStructDefine)
    (print (qual ++ lit " struct wasi_vfs_ops " ++ prefix ++ lit "ops = {")) >>>
  for_each lines (process_line mode prefix qual) >>>
  when (Mode_eqb mode VfsStructDecl) (print (lit "};")) >>>
  when (Mode_eqb mode VfsStructDefine) (print (lit "};")).

Definition default_prefix : str := lit "wasi_vfs_".

Definition default_qual : str := lit "static const".

(** ** The script and the file system *)

(** Reading in text mode translates every line ending to a line feed. *)
Fixpoint universal_newlines (s : str) : str :=
  match s with
  | [] => []
  | 13 :: r =>
      match r with
      | 10 :: _ => universal_newlines r
      | _ => 10 :: universal_newlines r
      end
  | c :: r => c :: universal_newlines r
  end.

(** [open(filename, "r").read()] *)
Definition read_file (name : string) : M (gmap string str) str :=
  λ fs, match fs !! name with
        | Some raw => (fs, inr (universal_newlines raw))
        | None => (fs, inl (Raised FileNotFoundError 19))
        end.

(** [with open(name, "w") as fp: body(fp)]: the file is created empty (or
    truncated) when it is opened, and what [body] wrote is in it when the
    block is left, also when [body] raises. *)
Definition with_open_w (name : string) (body : M str unit)
  : M (gmap string str) unit :=
  λ fs, let '(out, r) := body [] in (<[name := out]> fs, r).

(** The lines of the definition file: the text without its line feeds, cut
    at every semicolon. *)
Definition lines_of (content : str) : list str :=
  Py.split semicolon (Py.remove_char 10 content).

(** The module's top level. *)
Definition main : M (gmap string str) unit :=
  do content <- read_file filename;
  let lines := lines_of content in
  with_open_w "wasi_vfs_ops.h"
    (process lines VfsStructDecl default_prefix default_qual) >>>
  with_open_w "wasi_vfs.h"
    (process lines VfsPrototype default_prefix default_qual) >>>
  with_open_w "wasi_vfs_dispatch.h"
    (process lines VfsDefine default_prefix default_qual).

(** Exit status of the interpreter: 1 after an uncaught exception. *)
Definition exit_status {A} (r : exn + A) : nat :=
  match r with inl _ => 1%nat | inr _ => 0%nat end.

(** * Vocabulary of the properties *)

(** ** Computations on the sink *)

(** A computation on the sink only appends to it: what it writes and how it
    ends do not depend on the text already there. *)
Definition uniform {A} (m : M str A) : Prop :=
  ∀ out, m out = (out ++ (m []).1, (m []).2).

(** ** Signatures

    The loop body of [process] first decomposes a statement and then emits
    its text.  The two halves are named here; [process_line] is shown below
    to be their composition. *)

Record signature : Type := Signature {
  sig_name : str;             (* [fn] *)
  sig_args : list str;        (* [args_sig]: the trimmed fragments *)
  sig_idents : list str;      (* [args_name] *)
  sig_path_info : list str    (* [path_info_arg] *)
}.

(** The loop that fills [args_name]. *)
Fixpoint idents_of (args : list str) : exn + list str :=
  match args with
  | [] => inr []
  | a :: r =>
      match Re.re_name_search (Py.strip a) with
      | None => inl (Raised AttributeError 45)
      | Some g =>
          match idents_of r with
          | inl e => inl e
          | inr gs => inr (g :: gs)
          end
      end
  end.

(** Lines 35 to 50 of [genvfs.py] on a trimmed, non-empty statement. *)
Definition parse_statement (line : str) : exn + signature :=
  match Py.split rparen line with
  | [hd; _] =>
      match Py.split lparen hd with
      | [fn; block] =>
          let args := Py.split comma block in
          match idents_of args with
          | inl e => inl e
          | inr ids =>
              inr (Signature fn (map Py.strip args) ids
                     (omap Re.re_path_info_search args))
          end
      | _ => inl (Raised ValueError 36)
      end
  | _ => inl (Raised ValueError 35)
  end.

Definition arg_list (l : list str) : str := Py.join (lit ", ") l.

(** Lines 52 to 70 of [genvfs.py]. *)
Definition emit_signature (mode : Mode) (prefix qual : str) (s : signature)
  : M str unit :=
  match mode with
  | VfsStructDecl =>
      print (TAB ++ lit "int (*" ++ sig_name s ++ lit ")("
             ++ arg_list (sig_args s) ++ lit ");")
  | VfsStructDefine =>
      print (TAB ++ lit "." ++ sig_name s ++ lit " = " ++ prefix
             ++ sig_name s ++ lit ",")
  | VfsPrototype =>
      print (lit "int " ++ prefix ++ sig_name s ++ lit "("
             ++ arg_list (sig_args s) ++ lit ");")
  | VfsDefine =>
      print (lit "int" ++ NL ++ lit "wasi_vfs_" ++ sig_name s ++ lit "("
             ++ arg_list (sig_args s) ++ lit ")") >>>
      print (lit "{") >>>
      (if Py.startswith (lit "path_") (sig_name s) then
         for_each (tail (sig_path_info s)) (λ a,
           do ref <- index0 63 (sig_path_info s);
           print (TAB ++ lit "if (check_xdev(" ++ ref ++ lit ", " ++ a
                  ++ lit ")) {") >>>
           print (TAB ++ TAB ++ lit "return EXDEV;") >>>
           print (TAB ++ lit "}")) >>>
         do ref <- index0 66 (sig_path_info s);
         print (TAB ++ lit "const struct wasi_vfs_ops *ops = path_vfs_ops("
                ++ ref ++ lit ");")
       else
         print (TAB
                ++ lit "const struct wasi_vfs_ops *ops = fdinfo_vfs_ops(fdinfo);"))
      >>>
      print (TAB ++ lit "return ops->" ++ sig_name s ++ lit "("
             ++ arg_list (sig_idents s) ++ lit ");") >>>
      print (lit "}")
  end.

(** The statements of the file that are not blank, parsed in order; the
    first parse failure if there is one. *)
Fixpoint signatures (lines : list str) : exn + list signature :=
  match lines with
  | [] => inr []
  | l :: r =>
      if Py.truthy (Py.strip l) then
        match parse_statement (Py.strip l) with
        | inl e => inl e
        | inr s =>
            match signatures r with
            | inl e => inl e
            | inr ss => inr (s :: ss)
            end
        end
      else signatures r
  end.

(** ** The text of an artifact *)

(** The two lines every artifact starts with. *)
Definition header : str :=
  lit "/* this file is generated by genvfs.sh */" ++ NL
  ++ lit "#include " ++ DQUOTE ++ lit "wasi_vfs_types.h" ++ DQUOTE ++ NL.

(** The line that opens the braces of a mode, if it has one. *)
Definition opening (mode : Mode) (prefix qual : str) : str :=
  match mode with
  | VfsStructDecl => lit "struct wasi_vfs_ops {" ++ NL
  | VfsStructDefine =>
      qual ++ lit " struct wasi_vfs_ops " ++ prefix ++ lit "ops = {" ++ NL
  | _ => []
  end.

(** The line that closes them. *)
Definition closing (mode : Mode) : str :=
  match mode with
  | VfsStructDecl | VfsStructDefine => lit "};" ++ NL
  | _ => []
  end.

(** The lines the three declaration modes write for a signature: a member
    of the struct, a prototype, an initializer. *)
Definition member_decl (s : signature) : str :=
  TAB ++ lit "int (*" ++ sig_name s ++ lit ")(" ++ arg_list (sig_args s)
  ++ lit ");" ++ NL.

Definition prototype (prefix : str) (s : signature) : str :=
  lit "int " ++ prefix ++ sig_name s ++ lit "(" ++ arg_list (sig_args s)
  ++ lit ");" ++ NL.

Definition initializer (prefix : str) (s : signature) : str :=
  TAB ++ lit "." ++ sig_name s ++ lit " = " ++ prefix ++ sig_name s
  ++ lit "," ++ NL.

(** What the three declaration modes write for one signature. *)
Definition declaration (mode : Mode) (prefix : str) (s : signature) : str :=
  match mode with
  | VfsStructDecl => member_decl s
  | VfsPrototype => prototype prefix s
  | VfsStructDefine => initializer prefix s
  | VfsDefine => []
  end.

(** ** The text of a trampoline *)

(** The first two lines of a trampoline: return type, name, arguments and
    the opening brace. *)
Definition trampoline_head (s : signature) : str :=
  lit "int" ++ NL ++ lit "wasi_vfs_" ++ sig_name s ++ lit "("
  ++ arg_list (sig_args s) ++ lit ")" ++ NL
  ++ lit "{" ++ NL.

(** One cross-device guard. *)
Definition xdev_guard (ref cand : str) : str :=
  TAB ++ lit "if (check_xdev(" ++ ref ++ lit ", " ++ cand ++ lit ")) {" ++ NL
  ++ TAB ++ TAB ++ lit "return EXDEV;" ++ NL
  ++ TAB ++ lit "}" ++ NL.

Definition path_lookup (ref : str) : str :=
  TAB ++ lit "const struct wasi_vfs_ops *ops = path_vfs_ops(" ++ ref
  ++ lit ");" ++ NL.

Definition fdinfo_lookup : str :=
  TAB ++ lit "const struct wasi_vfs_ops *ops = fdinfo_vfs_ops(fdinfo);" ++ NL.

(** The forwarding call and the closing brace. *)
Definition trampoline_tail (s : signature) : str :=
  TAB ++ lit "return ops->" ++ sig_name s ++ lit "("
  ++ arg_list (sig_idents s) ++ lit ");" ++ NL
  ++ lit "}" ++ NL.

(** ** Blanks, identifiers, fragments *)

Definition blank (l : str) : Prop := Forall (λ c, Py.isspace c = true) l.

(** [[a-z][_a-z0-9]*] as a predicate on the whole of a string. *)
Definition identifier (g : str) : Prop :=
  ∃ c r, g = c :: r ∧ Re.lower c = true ∧ Forall (λ x, Re.word x = true) r.

(** [a] is one of the comma-separated fragments of statement [l]. *)
Definition fragment_of (l a : str) : Prop :=
  ∃ hd tl fn block,
    Py.split rparen (Py.strip l) = [hd; tl] ∧
    Py.split lparen hd = [fn; block] ∧
    a ∈ Py.split comma block.

(** No suffix of the trimmed fragment is an identifier. *)
Definition lacks_identifier (a : str) : Prop :=
  ∀ pre g, identifier g → Py.strip a ≠ pre ++ g.

(** A statement that is not blank and does not parse. *)
Definition offending (l : str) : Prop :=
  Py.truthy (Py.strip l) = true ∧ ∃ e, parse_statement (Py.strip l) = inl e.

(** ** Output files and example definition files *)

Definition ops_h : string := "wasi_vfs_ops.h".

Definition vfs_h : string := "wasi_vfs.h".

Definition dispatch_h : string := "wasi_vfs_dispatch.h".

Definition def_file (content : str) : gmap string str :=
  {[ filename := content ]}.

Definition bad_stmt_no_parens : str := lit "bad_stmt_no_parens".

Definition close_stmt : str := lit "close(struct path_info *fdinfo)".

Definition path_link_stmt : str :=
  lit "path_link(struct path_info *old, struct path_info *new)".

(** Two [struct path_info *] arguments, the first followed by a blank. *)
Definition path_link_blank : str :=
  lit "path_link(struct path_info *old , struct path_info *new);".

(** An argument broken over two lines, and a blank before a comma. *)
Definition split_argument : str :=
  lit "f(unsigned" ++ NL ++ lit "int a , char *b);".

(** ** Whole artifacts *)

(** The trampoline of a signature: for a path_ name the guards and the
    lookup through the first recorded path-info argument, otherwise the
    lookup through fdinfo. *)
Definition trampoline (s : signature) : str :=
  trampoline_head s
  ++ (if Py.startswith (lit "path_") (sig_name s) then
        match sig_path_info s with
        | ref :: cands =>
            concat (map (xdev_guard ref) cands) ++ path_lookup ref
        | [] => []
        end
      else fdinfo_lookup)
  ++ trampoline_tail s.

(** A signature the dispatch emission can take the reference path-info of. *)
Definition dispatchable (s : signature) : Prop :=
  Py.startswith (lit "path_") (sig_name s) = true → sig_path_info s ≠ [].

(** What the three output files hold after a run without failure. *)
Definition ops_artifact (sigs : list signature) : str :=
  header ++ (lit "struct wasi_vfs_ops {" ++ NL)
  ++ concat (map member_decl sigs) ++ lit "};" ++ NL.

Definition vfs_artifact (sigs : list signature) : str :=
  header ++ concat (map (prototype default_prefix) sigs).

Definition dispatch_artifact (sigs : list signature) : str :=
  header ++ concat (map trampoline sigs).

(** Number of occurrences of a character. *)
Fixpoint count_char (c : N) (s : str) : nat :=
  match s with
  | [] => 0%nat
  | x :: r => if x =? c then S (count_char c r) else count_char c r
  end.

(** Text without blanks at its two ends. *)
Definition trimmed (a : str) : Prop := Py.strip a = a.

(** * Lemmas *)

(** ** The monad *)

Section Monad.

Context {S : Type}.

Lemma bind_ok {A B} (m : M S A) (k : A → M S B) s s' a :
  m s = (s', inr a) → bind m k s = k a s'.
Proof. unfold bind. by intros ->. Qed.

Lemma bind_raise {A B} (m : M S A) (k : A → M S B) s s' e :
  m s = (s', inl e) → bind m k s = (s', inl e).
Proof. unfold bind. by intros ->. Qed.

Lemma for_each_app {A} (l1 l2 : list A) (body : A → M S unit) s :
  for_each (l1 ++ l2) body s = (for_each l1 body >>> for_each l2 body) s.
Proof.
  revert s. induction l1 as [|x l1 IH]; intros s; simpl; [done|].
  unfold bind in *. destruct (body x s) as [s1 [e|[]]]; [done|].
  by rewrite IH.
Qed.

End Monad.

Lemma uniform_ret {A} (a : A) : uniform (ret a).
Proof. intros out. unfold ret. simpl. by rewrite app_nil_r. Qed.

Lemma uniform_raise {A} e : uniform (@raise str A e).
Proof. intros out. unfold raise. simpl. by rewrite app_nil_r. Qed.

Lemma uniform_print x : uniform (print x).
Proof. intros out. done. Qed.

Lemma uniform_bind {A B} (m : M str A) (k : A → M str B) :
  uniform m → (∀ a, uniform (k a)) → uniform (bind m k).
Proof.
  intros Hm Hk out. unfold bind. rewrite (Hm out).
  destruct (m []) as [w [e|a]]; simpl.
  - done.
  - rewrite (Hk a (out ++ w)), (Hk a w). simpl. by rewrite app_assoc.
Qed.

Lemma uniform_when b (m : M str unit) : uniform m → uniform (when b m).
Proof. destruct b; simpl; [done|]. intros _. apply uniform_ret. Qed.

Lemma uniform_for_each {A} (l : list A) (body : A → M str unit) :
  (∀ x, uniform (body x)) → uniform (for_each l body).
Proof.
  intros Hb. induction l as [|x l IH]; simpl.
  - apply uniform_ret.
  - apply uniform_bind; [apply Hb | by intros _].
Qed.

Lemma uniform_collect {A B} (l : list A) (body : A → M str B) :
  (∀ x, uniform (body x)) → uniform (collect l body).
Proof.
  intros Hb. induction l as [|x l IH]; simpl.
  - apply uniform_ret.
  - apply uniform_bind; [apply Hb | intros y].
    apply uniform_bind; [apply IH | intros ys]. apply uniform_ret.
Qed.

Lemma uniform_unpack2 {A} n (l : list A) : uniform (unpack2 n l).
Proof.
  unfold unpack2. destruct l as [|a [|b [|c l]]];
    first [apply uniform_raise | apply uniform_ret].
Qed.

Lemma uniform_group n m : uniform (group n m).
Proof. destruct m; simpl; first [apply uniform_raise | apply uniform_ret]. Qed.

Lemma uniform_index0 {A} n (l : list A) : uniform (index0 n l).
Proof. destruct l; simpl; first [apply uniform_raise | apply uniform_ret]. Qed.

Create HintDb uniform.

#[local] Hint Resolve uniform_print uniform_unpack2 uniform_group
  uniform_index0 uniform_when : uniform.

#[local] Hint Extern 1 (uniform (ret _)) => apply uniform_ret : uniform.

#[local] Hint Extern 1 (uniform (raise _)) => apply uniform_raise : uniform.

#[local] Hint Extern 2 (uniform (bind _ _)) =>
  apply uniform_bind; [|intros ?] : uniform.

#[local] Hint Extern 2 (uniform (for_each _ _)) =>
  apply uniform_for_each; intros ? : uniform.

#[local] Hint Extern 2 (uniform (collect _ _)) =>
  apply uniform_collect; intros ? : uniform.

#[local] Hint Extern 3 (uniform (match ?x with _ => _ end)) =>
  destruct x : uniform.

Lemma uniform_process_line mode prefix qual line :
  uniform (process_line mode prefix qual line).
Proof. unfold process_line. auto 20 with uniform. Qed.

Lemma uniform_process lines mode prefix qual :
  uniform (process lines mode prefix qual).
Proof.
  unfold process.
  repeat (apply uniform_bind; [auto with uniform | intros _]);
    auto using uniform_for_each, uniform_process_line with uniform.
Qed.

(** ** The loop body as parse and emission *)

Lemma collect_idents (args : list str) (out : str) :
  collect args (λ a, group 45 (Re.re_name_search (Py.strip a))) out
  = (out, idents_of args).
Proof.
  induction args as [|a args IH]; simpl; [done|].
  unfold bind. destruct (Re.re_name_search (Py.strip a)) as [g|]; simpl; [|done].
  rewrite IH. by destruct (idents_of args).
Qed.

Lemma process_line_blank mode prefix qual line out :
  Py.truthy (Py.strip line) = false →
  process_line mode prefix qual line out = (out, inr tt).
Proof. unfold process_line. by intros ->. Qed.

Lemma process_line_parse mode prefix qual line out :
  Py.truthy (Py.strip line) = true →
  process_line mode prefix qual line out =
    match parse_statement (Py.strip line) with
    | inl e => (out, inl e)
    | inr s => emit_signature mode prefix qual s out
    end.
Proof.
  intros Hne. unfold process_line, parse_statement. rewrite Hne. simpl.
  destruct (Py.split rparen (Py.strip line)) as [|hd [|tl [|? ?]]]; try done.
  unfold bind at 1. simpl.
  destruct (Py.split lparen hd) as [|fn [|block [|? ?]]]; try done.
  unfold bind at 1. simpl.
  unfold bind at 1. rewrite collect_idents.
  destruct (idents_of (Py.split comma block)) as [e|ids]; [done|].
  by destruct mode.
Qed.

Lemma process_line_ok mode prefix qual line out s :
  Py.truthy (Py.strip line) = true →
  parse_statement (Py.strip line) = inr s →
  process_line mode prefix qual line out = emit_signature mode prefix qual s out.
Proof. intros Hne Hp. by rewrite process_line_parse, Hp. Qed.

Lemma process_line_fail mode prefix qual line out e :
  Py.truthy (Py.strip line) = true →
  parse_statement (Py.strip line) = inl e →
  process_line mode prefix qual line out = (out, inl e).
Proof. intros Hne Hp. by rewrite process_line_parse, Hp. Qed.

(** ** The shape of an artifact *)

Lemma process_shape lines mode prefix qual out :
  process lines mode prefix qual out =
    match for_each lines (process_line mode prefix qual)
            (out ++ header ++ opening mode prefix qual) with
    | (out', inr _) => (out' ++ closing mode, inr tt)
    | (out', inl e) => (out', inl e)
    end.
Proof.
  unfold process, header, opening, closing.
  destruct mode; cbn [Mode_eqb when]; unfold bind, print, ret;
    cbv beta iota; rewrite <- ?app_assoc, ?app_nil_r;
    match goal with |- context [for_each ?l ?b ?o] =>
      destruct (for_each l b o) as [o' [e|[]]] end;
    rewrite ?app_nil_r; done.
Qed.

Lemma emit_declaration mode prefix qual s out :
  mode ≠ VfsDefine →
  emit_signature mode prefix qual s out
  = (out ++ declaration mode prefix s, inr tt).
Proof.
  intros Hm. destruct mode; try done;
    unfold emit_signature, print, declaration, member_decl, prototype,
      initializer;
    by rewrite <- ?app_assoc.
Qed.

Lemma for_each_blank mode prefix qual l lines out :
  Py.truthy (Py.strip l) = false →
  for_each (l :: lines) (process_line mode prefix qual) out
  = for_each lines (process_line mode prefix qual) out.
Proof. intros Hb. simpl. unfold bind. by rewrite process_line_blank. Qed.

(** Over statements that all parse, the loop of [process] is the loop of
    the emission over their signatures. *)
Lemma for_each_signatures mode prefix qual lines sigs out :
  signatures lines = inr sigs →
  for_each lines (process_line mode prefix qual) out
  = for_each sigs (emit_signature mode prefix qual) out.
Proof.
  revert sigs out. induction lines as [|l lines IH]; intros sigs out Hs.
  - by injection Hs as <-.
  - simpl in Hs. destruct (Py.truthy (Py.strip l)) eqn:Hne.
    + destruct (parse_statement (Py.strip l)) as [e|s] eqn:Hp; [done|].
      destruct (signatures lines) as [e|ss]; [done|].
      injection Hs as <-. simpl. unfold bind.
      rewrite (process_line_ok _ _ _ _ _ s) by done.
      destruct (emit_signature mode prefix qual s out) as [o [e|[]]]; [done|].
      by apply IH.
    + rewrite for_each_blank by done. by apply IH.
Qed.

Lemma for_each_declarations mode prefix qual sigs out :
  mode ≠ VfsDefine →
  for_each sigs (emit_signature mode prefix qual) out
  = (out ++ concat (map (declaration mode prefix) sigs), inr tt).
Proof.
  intros Hm. revert out. induction sigs as [|s sigs IH]; intros out; simpl.
  - unfold ret. by rewrite app_nil_r.
  - unfold bind. rewrite emit_declaration by done. rewrite IH.
    by rewrite <- app_assoc.
Qed.

(** The loop stops at the first statement that does not parse, with what the
    statements before it wrote. *)
Lemma for_each_first_failure mode prefix qual pre l post sigs e out :
  signatures pre = inr sigs →
  Py.truthy (Py.strip l) = true →
  parse_statement (Py.strip l) = inl e →
  for_each (pre ++ l :: post) (process_line mode prefix qual) out
  = match for_each sigs (emit_signature mode prefix qual) out with
    | (out', inr _) => (out', inl e)
    | (out', inl e') => (out', inl e')
    end.
Proof.
  intros Hs Hne Hp. rewrite for_each_app. unfold bind at 1.
  rewrite (for_each_signatures _ _ _ _ sigs) by done.
  destruct (for_each sigs _ out) as [o [e'|[]]]; [done|].
  simpl. unfold bind. by rewrite (process_line_fail _ _ _ _ _ e).
Qed.

(** A file with a statement that does not parse has a first such statement. *)
Lemma signatures_failure lines e :
  signatures lines = inl e →
  ∃ pre l post sigs,
    lines = pre ++ l :: post ∧ signatures pre = inr sigs ∧
    Py.truthy (Py.strip l) = true ∧ parse_statement (Py.strip l) = inl e.
Proof.
  induction lines as [|l lines IH]; simpl; [done|].
  destruct (Py.truthy (Py.strip l)) eqn:Hne.
  - destruct (parse_statement (Py.strip l)) as [e'|s] eqn:Hp.
    + intros [= ->]. by exists [], l, lines, [].
    + destruct (signatures lines) as [e'|ss] eqn:Hs; [|done].
      intros [= ->].
      destruct IH as (pre & l' & post & sigs & -> & Hpre & ? & ?); [done|].
      exists (l :: pre), l', post, (s :: sigs). simpl.
      by rewrite Hne, Hp, Hpre.
  - intros He. destruct (IH He) as (pre & l' & post & sigs & -> & Hs & ? & ?).
    exists (l :: pre), l', post, sigs. simpl. by rewrite Hne.
Qed.

(** ** Dispatch trampolines *)

Lemma for_each_guards (pia : list str) ref cands out :
  pia = ref :: cands →
  ∀ l : list str,
  for_each l (λ a,
    do r <- index0 63 pia;
    print (TAB ++ lit "if (check_xdev(" ++ r ++ lit ", " ++ a ++ lit ")) {") >>>
    print (TAB ++ TAB ++ lit "return EXDEV;") >>>
    print (TAB ++ lit "}")) out
  = (out ++ concat (map (xdev_guard ref) l), inr tt).
Proof.
  intros -> l. revert out. induction l as [|a l IH]; intros out.
  - simpl. unfold ret. by rewrite app_nil_r.
  - cbn [for_each map concat]. unfold bind at 1.
    unfold bind, index0, ret, print. cbv beta iota.
    rewrite IH. unfold xdev_guard. by rewrite <- !app_assoc.
Qed.

Lemma emit_dispatch_fd prefix qual s out :
  Py.startswith (lit "path_") (sig_name s) = false →
  emit_signature VfsDefine prefix qual s out
  = (out ++ trampoline_head s ++ fdinfo_lookup ++ trampoline_tail s, inr tt).
Proof.
  intros Hp. unfold emit_signature. rewrite Hp.
  unfold bind, print. cbv beta iota.
  unfold trampoline_head, fdinfo_lookup, trampoline_tail.
  by rewrite <- !app_assoc.
Qed.

Lemma emit_dispatch_path prefix qual s ref cands out :
  Py.startswith (lit "path_") (sig_name s) = true →
  sig_path_info s = ref :: cands →
  emit_signature VfsDefine prefix qual s out
  = (out ++ trampoline_head s ++ concat (map (xdev_guard ref) cands)
         ++ path_lookup ref ++ trampoline_tail s, inr tt).
Proof.
  intros Hp Hpia. unfold emit_signature. rewrite Hp.
  unfold bind at 1. unfold print at 1. cbv beta iota.
  unfold bind at 1. unfold print at 1. cbv beta iota.
  unfold bind at 1. unfold bind at 1.
  rewrite (for_each_guards _ ref cands) by done.
  rewrite Hpia. cbn [tail]. unfold bind, index0, ret, print. cbv beta iota.
  unfold trampoline_head, path_lookup, trampoline_tail.
  by rewrite <- !app_assoc.
Qed.

Lemma emit_dispatch_no_path_info prefix qual s out :
  Py.startswith (lit "path_") (sig_name s) = true →
  sig_path_info s = [] →
  emit_signature VfsDefine prefix qual s out
  = (out ++ trampoline_head s, inl (Raised IndexError 66)).
Proof.
  intros Hp Hpia. unfold emit_signature. rewrite Hp, Hpia.
  cbn [tail for_each]. unfold bind, index0, ret, raise, print.
  cbv beta iota. unfold trampoline_head. by rewrite <- !app_assoc.
Qed.

(** ** Splitting, joining, trimming *)

Lemma split_nonempty sep s : Py.split sep s ≠ [].
Proof.
  destruct s as [|x r]; simpl; [done|].
  destruct (x =? sep); [done|]. by destruct (Py.split sep r).
Qed.

(** Joining the pieces with the separator gives the text back. *)
Lemma join_split sep s : Py.join [sep] (Py.split sep s) = s.
Proof.
  induction s as [|x r IH]; simpl; [done|].
  pose proof (split_nonempty sep r) as Hne.
  destruct (N.eqb_spec x sep) as [->|Hx].
  - destruct (Py.split sep r) as [|h t]; [done|]. simpl in *. by rewrite IH.
  - destruct (Py.split sep r) as [|h t]; [done|].
    destruct t; simpl in *; by rewrite <- IH.
Qed.

Lemma split_two sep s a b : Py.split sep s = [a; b] → s = a ++ sep :: b.
Proof. intros H. by rewrite <- (join_split sep s), H. Qed.

Lemma lstrip_decomp s : ∃ l, s = l ++ Py.lstrip s ∧ blank l.
Proof.
  unfold blank. induction s as [|x r (l & IH & Hl)]; simpl.
  - by exists [].
  - destruct (Py.isspace x) eqn:Hx.
    + exists (x :: l). split; [simpl; congruence | by constructor].
    + by exists [].
Qed.

Lemma lstrip_head s c t : Py.lstrip s = c :: t → Py.isspace c = false.
Proof.
  induction s as [|x r IH]; simpl; [done|].
  destruct (Py.isspace x) eqn:Hx; [done|]. by intros [= <- _].
Qed.

Lemma rstrip_decomp s : ∃ r, s = Py.rstrip s ++ r ∧ blank r.
Proof.
  unfold Py.rstrip. destruct (lstrip_decomp (rev s)) as (l & Hs & Hl).
  exists (rev l). split.
  - rewrite <- rev_app_distr, <- Hs. by rewrite rev_involutive.
  - by apply Forall_rev.
Qed.

Lemma rstrip_last s t c : Py.rstrip s = t ++ [c] → Py.isspace c = false.
Proof.
  unfold Py.rstrip. intros H. apply (f_equal (@rev N)) in H.
  rewrite rev_involutive, rev_app_distr in H. simpl in H.
  by eapply lstrip_head.
Qed.

(** Trimming removes blanks at both ends and nothing else. *)
Lemma strip_decomp s : ∃ l r, s = l ++ Py.strip s ++ r ∧ blank l ∧ blank r.
Proof.
  unfold Py.strip. destruct (lstrip_decomp s) as (l & Hs & Hl).
  destruct (rstrip_decomp (Py.lstrip s)) as (r & Hs' & Hr).
  exists l, r. by rewrite <- Hs', <- Hs.
Qed.

Lemma strip_last s t c : Py.strip s = t ++ [c] → Py.isspace c = false.
Proof. apply rstrip_last. Qed.

(** ** The identifier pattern *)

Lemma span_word_spec s run rest :
  Re.span_word s = (run, rest) →
  s = run ++ rest ∧ Forall (λ x, Re.word x = true) run.
Proof.
  revert run rest. induction s as [|x r IH]; intros run rest; simpl.
  - by intros [= <- <-].
  - destruct (Re.word x) eqn:Hx.
    + destruct (Re.span_word r) as [run' rest'].
      intros [= <- <-]. destruct (IH _ _ eq_refl) as [-> ?].
      split; [done | by constructor].
    + by intros [= <- <-].
Qed.

Lemma span_word_run run rest :
  Forall (λ x, Re.word x = true) run →
  (∀ c t, rest = c :: t → Re.word c = false) →
  Re.span_word (run ++ rest) = (run, rest).
Proof.
  intros Hrun Hrest. induction Hrun as [|x run Hx _ IH]; simpl.
  - destruct rest as [|c t]; [done|]. simpl. by rewrite (Hrest c t).
  - by rewrite Hx, IH.
Qed.

Lemma dollar_spec s : Re.dollar s = true ↔ s = [] ∨ s = [10].
Proof.
  destruct s as [|c [|? ?]]; simpl.
  - split; [by left | done].
  - rewrite N.eqb_eq. split; [intros ->; by right | by intros [?|[= ->]]].
  - split; [done | by intros [?|?]].
Qed.

(** A match at the start of [s] is an identifier that is all of [s], or all
    of it but a final line feed. *)
Lemma name_here_Some s g :
  Re.name_here s = Some g ↔ identifier g ∧ (s = g ∨ s = g ++ [10]).
Proof.
  split.
  - destruct s as [|c r]; simpl; [done|].
    destruct (Re.lower c) eqn:Hc; [|done].
    destruct (Re.span_word r) as [run rest] eqn:Hspan.
    destruct (Re.dollar rest) eqn:Hd; [|done]. intros [= <-].
    apply span_word_spec in Hspan as [-> Hrun].
    apply dollar_spec in Hd. split; [by exists c, run|].
    destruct Hd as [-> | ->]; [left; by rewrite app_nil_r | by right].
  - intros [(c & r & -> & Hc & Hr) Hs].
    assert (∃ rest, s = c :: r ++ rest ∧ Re.dollar rest = true) as
      (rest & -> & Hd).
    { destruct Hs as [-> | ->]; [exists []; by rewrite app_nil_r | by exists [10]]. }
    simpl. rewrite Hc, span_word_run, Hd; [done..|].
    intros c' t ->. apply dollar_spec in Hd as [?|[= -> ->]]; done.
Qed.

Lemma re_name_search_cons x r :
  Re.re_name_search (x :: r) =
    match Re.name_here (x :: r) with
    | Some g => Some g
    | None => Re.re_name_search r
    end.
Proof. done. Qed.

Lemma re_name_search_Some s g :
  Re.re_name_search s = Some g →
  identifier g ∧ ∃ pre, s = pre ++ g ∨ s = pre ++ g ++ [10].
Proof.
  induction s as [|x r IH].
  - done.
  - rewrite re_name_search_cons.
    destruct (Re.name_here (x :: r)) as [g'|] eqn:Hh.
    + intros [= ->]. apply name_here_Some in Hh as [Hg Hs].
      split; [done|]. by exists [].
    + intros Hr. destruct (IH Hr) as (Hg & pre & Hs). split; [done|].
      exists (x :: pre). simpl. destruct Hs as [-> | ->]; [by left | by right].
Qed.

Lemma re_name_search_None s :
  Re.re_name_search s = None ↔
  ∀ pre g, identifier g → s ≠ pre ++ g ∧ s ≠ pre ++ g ++ [10].
Proof.
  split.
  - induction s as [|x r IH].
    + intros _ pre g (c & t & -> & _). split; by destruct pre.
    + rewrite re_name_search_cons.
      destruct (Re.name_here (x :: r)) as [g'|] eqn:Hh; [done|].
      intros Hr pre g Hg. destruct pre as [|y pre]; simpl.
      * assert (Re.name_here (x :: r) = Some g → False) as Hno
          by (rewrite Hh; done).
        split; intros E; apply Hno, name_here_Some; (split; [done|]);
          [by left | by right].
      * destruct (IH Hr pre g Hg) as [H1 H2].
        split; intros [= _ E]; [by apply H1 | by apply H2].
  - intros Hno. destruct (Re.re_name_search s) as [g|] eqn:Hs; [|done].
    apply re_name_search_Some in Hs as (Hg & pre & Hs).
    destruct (Hno pre g Hg) as [H1 H2]. by destruct Hs.
Qed.

(** On trimmed text the line-feed case of [$] cannot occur: the search
    fails exactly when no suffix of the text is an identifier. *)
Lemma re_name_search_strip_None a :
  Re.re_name_search (Py.strip a) = None ↔
  ∀ pre g, identifier g → Py.strip a ≠ pre ++ g.
Proof.
  rewrite re_name_search_None. split.
  - intros H pre g Hg. by destruct (H pre g Hg).
  - intros H pre g Hg. split; [by apply H|].
    intros E. rewrite (app_assoc pre g [10]) in E.
    by apply strip_last in E.
Qed.

(** ** Parsing a statement *)

Lemma idents_of_inr args ids :
  idents_of args = inr ids ↔
  Forall2 (λ a g, Re.re_name_search (Py.strip a) = Some g) args ids.
Proof.
  revert ids. induction args as [|a args IH]; intros ids; simpl.
  - split; [intros [= <-]; constructor | by inversion 1].
  - destruct (Re.re_name_search (Py.strip a)) as [g|] eqn:Hg.
    + destruct (idents_of args) as [e|gs]; split.
      * done.
      * inversion 1; subst. by apply IH in H4.
      * intros [= <-]. constructor; [done | by apply IH].
      * inversion 1; subst. apply IH in H4. congruence.
    + split; [done|]. inversion 1; subst. congruence.
Qed.

Lemma idents_of_inl args e :
  idents_of args = inl e ↔
  e = Raised AttributeError 45 ∧
  Exists (λ a, Re.re_name_search (Py.strip a) = None) args.
Proof.
  induction args as [|a args IH]; simpl.
  - split; [done | intros [_ H]; inversion H].
  - destruct (Re.re_name_search (Py.strip a)) as [g|] eqn:Hg.
    + destruct (idents_of args) as [e'|gs]; split.
      * intros [= ->]. destruct IH as [IH _]. destruct (IH eq_refl).
        split; [done | by constructor].
      * intros [-> H]. inversion H; subst; [congruence|].
        destruct IH as [_ IH]. by rewrite IH.
      * done.
      * intros [-> H]. inversion H; subst; [congruence|].
        destruct IH as [_ IH]. by specialize (IH (conj eq_refl H1)).
    + split; [intros [= <-]; split; [done | by constructor] | by intros [-> _]].
Qed.

(** What a successful parse says about the statement: the name, an opening
    parenthesis, the argument block, a closing parenthesis and a rest that is
    ignored; the fragments are the pieces of the block between commas. *)
Lemma parse_statement_inr line s :
  parse_statement line = inr s →
  ∃ block rest,
    line = sig_name s ++ lparen :: block ++ rparen :: rest ∧
    sig_args s = map Py.strip (Py.split comma block) ∧
    idents_of (Py.split comma block) = inr (sig_idents s) ∧
    sig_path_info s = omap Re.re_path_info_search (Py.split comma block).
Proof.
  unfold parse_statement.
  destruct (Py.split rparen line) as [|hd [|tl [|? ?]]] eqn:H1; try done.
  destruct (Py.split lparen hd) as [|fn [|block [|? ?]]] eqn:H2; try done.
  destruct (idents_of (Py.split comma block)) as [e|ids] eqn:H3; [done|].
  intros [= <-]. exists block, tl. simpl.
  apply split_two in H1 as ->. apply split_two in H2 as ->.
  by rewrite <- app_assoc.
Qed.

(** The three ways a parse fails. *)
Lemma parse_statement_inl line e :
  parse_statement line = inl e →
  e = Raised ValueError 35 ∨ e = Raised ValueError 36
  ∨ e = Raised AttributeError 45.
Proof.
  unfold parse_statement.
  destruct (Py.split rparen line) as [|hd [|tl [|? ?]]]; try naive_solver.
  destruct (Py.split lparen hd) as [|fn [|block [|? ?]]]; try naive_solver.
  destruct (idents_of (Py.split comma block)) as [e'|ids] eqn:H3; [|done].
  intros [= <-]. apply idents_of_inl in H3 as [-> _]. naive_solver.
Qed.

Lemma fragment_offending l a :
  fragment_of l a → lacks_identifier a →
  Py.truthy (Py.strip l) = true ∧
  parse_statement (Py.strip l) = inl (Raised AttributeError 45).
Proof.
  intros (hd & tl & fn & block & H1 & H2 & Ha) Hlack. split.
  - by destruct (Py.strip l).
  - unfold parse_statement. rewrite H1, H2.
    destruct (idents_of (Py.split comma block)) as [e|ids] eqn:H3.
    + by apply idents_of_inl in H3 as [-> _].
    + apply idents_of_inr in H3.
      apply list_elem_of_lookup in Ha as [i Hi].
      destruct (Forall2_lookup_l _ _ _ _ _ H3 Hi) as (g & _ & Hg).
      apply re_name_search_strip_None in Hlack. congruence.
Qed.

Lemma signatures_offending lines :
  Exists offending lines → ∃ e, signatures lines = inl e.
Proof.
  induction 1 as [l lines [Hne [e He]] | l lines Hex IH]; simpl.
  - rewrite Hne, He. by exists e.
  - destruct IH as [e He]. rewrite He.
    destruct (Py.truthy (Py.strip l)); [|by exists e].
    destruct (parse_statement (Py.strip l)) as [e'|s]; [by exists e'|by exists e].
Qed.

Lemma signatures_inl lines e :
  signatures lines = inl e →
  e = Raised ValueError 35 ∨ e = Raised ValueError 36
  ∨ e = Raised AttributeError 45.
Proof.
  intros H. apply signatures_failure in H as (_ & l & _ & _ & _ & _ & _ & H).
  by apply parse_statement_inl in H.
Qed.

(** ** The script *)

Lemma main_read (fs : gmap string str) raw :
  fs !! filename = Some raw →
  main fs =
    (with_open_w ops_h
       (process (lines_of (universal_newlines raw)) VfsStructDecl
          default_prefix default_qual) >>>
     with_open_w vfs_h
       (process (lines_of (universal_newlines raw)) VfsPrototype
          default_prefix default_qual) >>>
     with_open_w dispatch_h
       (process (lines_of (universal_newlines raw)) VfsDefine
          default_prefix default_qual)) fs.
Proof. intros H. unfold main, bind at 1, read_file. by rewrite H. Qed.

Lemma main_missing (fs : gmap string str) :
  fs !! filename = None → main fs = (fs, inl (Raised FileNotFoundError 19)).
Proof. intros H. unfold main, bind at 1, read_file. by rewrite H. Qed.

Lemma with_open_w_run name body (fs : gmap string str) :
  with_open_w name body fs = (<[name := (body []).1]> fs, (body []).2).
Proof. unfold with_open_w. by destruct (body []). Qed.

(** A run on a file whose first offending statement comes after the
    statements of [sigs] stops in the first emission. *)
Lemma main_parse_failure (fs : gmap string str) raw pre l post sigs e :
  fs !! filename = Some raw →
  lines_of (universal_newlines raw) = pre ++ l :: post →
  signatures pre = inr sigs →
  Py.truthy (Py.strip l) = true →
  parse_statement (Py.strip l) = inl e →
  main fs =
    (<[ops_h := header ++ (lit "struct wasi_vfs_ops {" ++ NL)
                ++ concat (map member_decl sigs)]> fs,
     inl e).
Proof.
  intros Hfs Hl Hs Hne Hp. rewrite (main_read _ raw) by done.
  unfold bind at 1. rewrite with_open_w_run, Hl, process_shape.
  rewrite (for_each_first_failure _ _ _ _ _ _ sigs e) by done.
  rewrite for_each_declarations by done. cbn [fst snd opening declaration].
  by rewrite app_nil_l, <- !app_assoc.
Qed.

Lemma with_open_w_same name body (fs : gmap string str) :
  fs !! name = Some (body []).1 →
  with_open_w name body fs = (fs, (body []).2).
Proof. intros H. rewrite with_open_w_run. by rewrite insert_id. Qed.

Local Ltac lookup_inserted :=
  repeat (rewrite lookup_insert_ne by done); rewrite ?lookup_insert_eq; done.

Lemma main_idempotent (fs : gmap string str) : main (main fs).1 = main fs.
Proof.
  destruct (fs !! filename) as [raw|] eqn:Hfs.
  - rewrite (main_read fs raw) by done.
    set (lines := lines_of (universal_newlines raw)).
    set (p1 := process lines VfsStructDecl default_prefix default_qual).
    set (p2 := process lines VfsPrototype default_prefix default_qual).
    set (p3 := process lines VfsDefine default_prefix default_qual).
    assert (∀ fs' : gmap string str, fs' !! filename = Some raw →
      main fs' = (with_open_w ops_h p1 >>> with_open_w vfs_h p2 >>>
                  with_open_w dispatch_h p3) fs') as Hmain
      by (intros fs' H; by rewrite (main_read fs' raw)).
    unfold bind. rewrite (with_open_w_run ops_h p1 fs).
    destruct (p1 []) as [o1 [e1|[]]] eqn:H1; cbn [fst snd].
    { rewrite Hmain by lookup_inserted. unfold bind.
      rewrite (with_open_w_same ops_h) by (rewrite H1; lookup_inserted).
      by rewrite H1. }
    rewrite (with_open_w_run vfs_h p2).
    destruct (p2 []) as [o2 [e2|[]]] eqn:H2; cbn [fst snd].
    { rewrite Hmain by lookup_inserted. unfold bind.
      rewrite (with_open_w_same ops_h) by (rewrite H1; lookup_inserted).
      rewrite H1; cbn [fst snd].
      rewrite (with_open_w_same vfs_h) by (rewrite H2; lookup_inserted).
      by rewrite H2. }
    rewrite (with_open_w_run dispatch_h p3).
    destruct (p3 []) as [o3 r3] eqn:H3; cbn [fst snd].
    rewrite Hmain by lookup_inserted. unfold bind.
    rewrite (with_open_w_same ops_h) by (rewrite H1; lookup_inserted).
    rewrite H1; cbn [fst snd].
    rewrite (with_open_w_same vfs_h) by (rewrite H2; lookup_inserted).
    rewrite H2; cbn [fst snd].
    rewrite (with_open_w_same dispatch_h) by (rewrite H3; lookup_inserted).
    by rewrite H3.
  - rewrite (main_missing fs) by done. cbn [fst]. by rewrite main_missing.
Qed.

Lemma emit_dispatch_result prefix qual s out :
  (emit_signature VfsDefine prefix qual s out).2 = inr tt ∨
  (emit_signature VfsDefine prefix qual s out).2 = inl (Raised IndexError 66).
Proof.
  destruct (Py.startswith (lit "path_") (sig_name s)) eqn:Hp.
  - destruct (sig_path_info s) as [|ref cands] eqn:Hpia.
    + right. by rewrite emit_dispatch_no_path_info.
    + left. by rewrite (emit_dispatch_path _ _ _ ref cands).
  - left. by rewrite emit_dispatch_fd.
Qed.

Lemma for_each_dispatch_fails prefix qual sigs out :
  Exists (λ s, Py.startswith (lit "path_") (sig_name s) = true
               ∧ sig_path_info s = []) sigs →
  (for_each sigs (emit_signature VfsDefine prefix qual) out).2
  = inl (Raised IndexError 66).
Proof.
  intros Hex. revert out.
  induction Hex as [s sigs [Hp Hpia] | s sigs Hex IH]; intros out;
    cbn [for_each]; unfold bind.
  - by rewrite emit_dispatch_no_path_info.
  - destruct (emit_dispatch_result prefix qual s out) as [H|H];
      destruct (emit_signature VfsDefine prefix qual s out) as [o [e|[]]];
      simpl in H; done.
Qed.

Lemma remove_char_elem c x s : x ∈ Py.remove_char c s → x ≠ c ∧ x ∈ s.
Proof.
  induction s as [|y r IH]; simpl; [by intros ?%not_elem_of_nil|].
  destruct (N.eqb_spec y c) as [->|Hy].
  - intros [? ?]%IH. split; [done | by constructor].
  - intros [->|[? ?]%IH]%elem_of_cons; split; try done; by constructor.
Qed.

Lemma split_elem sep s l x : l ∈ Py.split sep s → x ∈ l → x ∈ s.
Proof.
  revert l. induction s as [|y r IH]; intros l; simpl.
  - by intros ->%list_elem_of_singleton.
  - destruct (y =? sep).
    + intros [->|Hl]%elem_of_cons Hx; [by apply not_elem_of_nil in Hx|].
      apply elem_of_cons. right. by apply (IH l).
    + pose proof (split_nonempty sep r) as Hne.
      destruct (Py.split sep r) as [|h t]; [done|].
      intros [->|Hl]%elem_of_cons Hx.
      * apply elem_of_cons in Hx as [->|Hx]; [by constructor|].
        apply elem_of_cons. right. apply (IH h); [by constructor | done].
      * apply elem_of_cons. right. apply (IH l); [by constructor | done].
Qed.

(** No statement holds a line feed. *)
Lemma lines_of_no_line_feed content line :
  line ∈ lines_of content → 10 ∉ line.
Proof.
  unfold lines_of. intros Hl Hx.
  apply (split_elem _ _ _ _ Hl) in Hx. by apply remove_char_elem in Hx as [? _].
Qed.

Lemma uniform_emit_signature mode prefix qual s :
  uniform (emit_signature mode prefix qual s).
Proof. unfold emit_signature. auto 20 with uniform. Qed.

(** * The claims *)

(** C9: for every mode, prefix and qualifier, what [process] writes begins
    with the same two header lines, the generated-file notice and the include
    of wasi_vfs_types.h, before anything that depends on the mode; this holds
    also for a run that raises later. *)
Theorem artifact_begins_with_header lines mode prefix qual out :
  ∃ rest,
    (process lines mode prefix qual out).1
    = out ++ (lit "/* this file is generated by genvfs.sh */" ++ NL
              ++ lit "#include " ++ DQUOTE ++ lit "wasi_vfs_types.h"
              ++ DQUOTE ++ NL) ++ rest.
Proof.
  rewrite process_shape. fold header.
  rewrite (uniform_for_each lines (process_line mode prefix qual)
             (uniform_process_line mode prefix qual)).
  destruct (for_each lines (process_line mode prefix qual) []) as [w [e|[]]];
    cbn [fst snd].
  - exists (opening mode prefix qual ++ w). by rewrite <- !app_assoc.
  - exists (opening mode prefix qual ++ w ++ closing mode).
    by rewrite <- !app_assoc.
Qed.

(** C5: the dispatch bodies do not depend on the prefix or on the qualifier
    handed to [process]: any two choices give the same text and the same
    outcome, and every trampoline is named wasi_vfs_ followed by the name of
    its signature. *)
Theorem dispatch_bodies_ignore_prefix lines prefix1 qual1 prefix2 qual2 out :
  process lines VfsDefine prefix1 qual1 out
  = process lines VfsDefine prefix2 qual2 out
  ∧ ∀ s, ∃ rest,
      (emit_signature VfsDefine prefix1 qual1 s out).1
      = out ++ lit "int" ++ NL ++ lit "wasi_vfs_" ++ sig_name s ++ lit "("
        ++ rest.
Proof.
  split; [reflexivity|]. intros s.
  destruct (Py.startswith (lit "path_") (sig_name s)) eqn:Hp.
  - destruct (sig_path_info s) as [|ref cands] eqn:Hpia.
    + rewrite emit_dispatch_no_path_info by done.
      unfold trampoline_head. cbn [fst]. eexists. by rewrite <- ?app_assoc.
    + rewrite (emit_dispatch_path _ _ _ ref cands) by done.
      unfold trampoline_head. cbn [fst]. eexists. by rewrite <- ?app_assoc.
  - rewrite emit_dispatch_fd by done.
    unfold trampoline_head. cbn [fst]. eexists. by rewrite <- ?app_assoc.
Qed.

(** C7: when every statement parses, the initializer emission writes the
    header, the line [<qual> struct wasi_vfs_ops <prefix>ops = {], then for
    each signature, in order, exactly one line [.<name> = <prefix><name>,]
    (after a tab), and the closing line. *)
Theorem struct_initializer lines sigs prefix qual out :
  signatures lines = inr sigs →
  process lines VfsStructDefine prefix qual out =
    (out ++ header
         ++ (qual ++ lit " struct wasi_vfs_ops " ++ prefix ++ lit "ops = {" ++ NL)
         ++ concat (map (λ s, TAB ++ lit "." ++ sig_name s ++ lit " = "
                              ++ prefix ++ sig_name s ++ lit "," ++ NL) sigs)
         ++ lit "};" ++ NL,
     inr tt).
Proof.
  intros Hs. rewrite process_shape, (for_each_signatures _ _ _ _ sigs) by done.
  rewrite for_each_declarations by done.
  cbn [opening closing declaration]. by rewrite <- !app_assoc.
Qed.

Lemma struct_initializer_witness :
  process [close_stmt; path_link_stmt; lit " "] VfsStructDefine
    (lit "wasi_host_") default_qual []
  = (header ++ lit "static const struct wasi_vfs_ops wasi_host_ops = {" ++ NL
       ++ TAB ++ lit ".close = wasi_host_close," ++ NL
       ++ TAB ++ lit ".path_link = wasi_host_path_link," ++ NL
       ++ lit "};" ++ NL,
     inr tt).
Proof.
  apply (struct_initializer [close_stmt; path_link_stmt; lit " "]
           [Signature (lit "close") [lit "struct path_info *fdinfo"]
              [lit "fdinfo"] [lit "fdinfo"];
            Signature (lit "path_link")
              [lit "struct path_info *old"; lit "struct path_info *new"]
              [lit "old"; lit "new"] [lit "old"; lit "new"]]
           (lit "wasi_host_") default_qual []).
  vm_compute. reflexivity.
Defined.

(** C3: for a statement that parses and whose name does not begin with
    path_, the dispatch emission writes the head of the trampoline, no
    cross-device guard, the lookup [fdinfo_vfs_ops(fdinfo)] as a fixed
    text (nothing is asked of the arguments), the forwarding call with the
    identifiers of the arguments, and the closing brace. *)
Theorem fd_dispatch_body line s prefix qual out :
  Py.truthy (Py.strip line) = true →
  parse_statement (Py.strip line) = inr s →
  Py.startswith (lit "path_") (sig_name s) = false →
  process_line VfsDefine prefix qual line out =
    (out ++ (lit "int" ++ NL ++ lit "wasi_vfs_" ++ sig_name s ++ lit "("
             ++ Py.join (lit ", ") (sig_args s) ++ lit ")" ++ NL
             ++ lit "{" ++ NL)
         ++ (TAB ++ lit "const struct wasi_vfs_ops *ops = fdinfo_vfs_ops(fdinfo);"
             ++ NL)
         ++ (TAB ++ lit "return ops->" ++ sig_name s ++ lit "("
             ++ Py.join (lit ", ") (sig_idents s) ++ lit ");" ++ NL
             ++ lit "}" ++ NL),
     inr tt).
Proof.
  intros Hne Hparse Hp. rewrite (process_line_ok _ _ _ _ _ s) by done.
  by rewrite emit_dispatch_fd.
Qed.

Lemma fd_dispatch_body_witness :
  process_line VfsDefine default_prefix default_qual close_stmt []
  = (lit "int" ++ NL ++ lit "wasi_vfs_close(struct path_info *fdinfo)" ++ NL
       ++ lit "{" ++ NL
       ++ TAB ++ lit "const struct wasi_vfs_ops *ops = fdinfo_vfs_ops(fdinfo);"
       ++ NL
       ++ TAB ++ lit "return ops->close(fdinfo);" ++ NL
       ++ lit "}" ++ NL,
     inr tt).
Proof.
  apply (fd_dispatch_body close_stmt
           (Signature (lit "close") [lit "struct path_info *fdinfo"]
              [lit "fdinfo"] [lit "fdinfo"])
           default_prefix default_qual []).
  - vm_compute. reflexivity.
  - vm_compute. reflexivity.
  - vm_compute. reflexivity.
Defined.

(** The same lookup text is written when no argument is called fdinfo. *)
Example fd_dispatch_without_fdinfo :
  process_line VfsDefine default_prefix default_qual (lit "sync(int fd)") []
  = (lit "int" ++ NL ++ lit "wasi_vfs_sync(int fd)" ++ NL
       ++ lit "{" ++ NL
       ++ TAB ++ lit "const struct wasi_vfs_ops *ops = fdinfo_vfs_ops(fdinfo);"
       ++ NL
       ++ TAB ++ lit "return ops->sync(fd);" ++ NL
       ++ lit "}" ++ NL,
     inr tt).
Proof. vm_compute. reflexivity. Qed.

(** What the dispatch emission does for a path_ signature of which the
    generator has recorded at least two path-info arguments: one guard per
    recorded argument after the first, in order, each against the first,
    then the lookup through the first and the forwarding call. *)
Lemma path_dispatch_body line s prefix qual out :
  Py.truthy (Py.strip line) = true →
  parse_statement (Py.strip line) = inr s →
  Py.startswith (lit "path_") (sig_name s) = true →
  (2 ≤ length (sig_path_info s))%nat →
  ∃ ref cands,
    sig_path_info s = ref :: cands ∧
    S (length cands) = length (sig_path_info s) ∧
    process_line VfsDefine prefix qual line out =
      (out ++ trampoline_head s
           ++ concat (map (xdev_guard ref) cands)
           ++ path_lookup ref
           ++ trampoline_tail s,
       inr tt).
Proof.
  intros Hne Hparse Hp Hlen.
  destruct (sig_path_info s) as [|ref cands] eqn:Hpia; [simpl in Hlen; lia|].
  exists ref, cands. split; [done|]. split; [done|].
  rewrite (process_line_ok _ _ _ _ _ s) by done.
  by apply emit_dispatch_path.
Qed.

Example path_link_dispatch :
  process_line VfsDefine default_prefix default_qual path_link_stmt []
  = (lit "int" ++ NL
       ++ lit "wasi_vfs_path_link(struct path_info *old, struct path_info *new)"
       ++ NL
       ++ lit "{" ++ NL
       ++ TAB ++ lit "if (check_xdev(old, new)) {" ++ NL
       ++ TAB ++ TAB ++ lit "return EXDEV;" ++ NL
       ++ TAB ++ lit "}" ++ NL
       ++ TAB ++ lit "const struct wasi_vfs_ops *ops = path_vfs_ops(old);" ++ NL
       ++ TAB ++ lit "return ops->path_link(old, new);" ++ NL
       ++ lit "}" ++ NL,
     inr tt).
Proof. vm_compute. reflexivity. Qed.

(** C2: the definition file
    [path_link(struct path_info *old , struct path_info *new);] declares
    two [struct path_info *] arguments under a name that begins with path_,
    yet the run succeeds with a dispatch artifact that holds no cross-device
    guard and looks the table up through [new]: the fragment before the
    comma ends in a blank, the path-info pattern is searched in the
    untrimmed fragment, and only [new] is recorded. *)
Theorem xdev_guard_lost_after_blank :
  omap Re.re_path_info_search
    (Py.split comma (lit "struct path_info *old , struct path_info *new"))
  = [lit "new"] ∧
  (main (def_file path_link_blank)).2 = inr tt ∧
  (main (def_file path_link_blank)).1 !! dispatch_h =
    Some (header ++ lit "int" ++ NL
          ++ lit "wasi_vfs_path_link(struct path_info *old, struct path_info *new)"
          ++ NL
          ++ lit "{" ++ NL
          ++ TAB ++ lit "const struct wasi_vfs_ops *ops = path_vfs_ops(new);"
          ++ NL
          ++ TAB ++ lit "return ops->path_link(old, new);" ++ NL
          ++ lit "}" ++ NL).
Proof. repeat split; vm_compute; reflexivity. Qed.

(** C10: when every statement parses and one of the signatures has a name
    that begins with path_ and no recorded path-info argument, the dispatch
    emission ends with the IndexError of line 66, the first path-info
    identifier being taken from an empty list, while the struct declaration
    and the prototype emissions of the same statements end without error. *)
Theorem path_without_path_info lines sigs prefix qual out :
  signatures lines = inr sigs →
  Exists (λ s, Py.startswith (lit "path_") (sig_name s) = true
               ∧ sig_path_info s = []) sigs →
  (process lines VfsDefine prefix qual out).2 = inl (Raised IndexError 66) ∧
  (process lines VfsStructDecl prefix qual out).2 = inr tt ∧
  (process lines VfsPrototype prefix qual out).2 = inr tt.
Proof.
  intros Hs Hex. rewrite !process_shape.
  rewrite !(for_each_signatures _ _ _ _ sigs) by done.
  rewrite (for_each_declarations VfsStructDecl) by done.
  rewrite (for_each_declarations VfsPrototype) by done. split; [|done].
  pose proof (for_each_dispatch_fails prefix qual sigs
                (out ++ header ++ opening VfsDefine prefix qual) Hex) as H.
  by destruct (for_each sigs _ _) as [o [e|[]]]; simpl in *.
Qed.

Lemma path_without_path_info_witness :
  (process [lit "f(int a)"; lit "path_x(int b)"] VfsDefine
     default_prefix default_qual []).2 = inl (Raised IndexError 66) ∧
  (process [lit "f(int a)"; lit "path_x(int b)"] VfsStructDecl
     default_prefix default_qual []).2 = inr tt ∧
  (process [lit "f(int a)"; lit "path_x(int b)"] VfsPrototype
     default_prefix default_qual []).2 = inr tt.
Proof.
  apply (path_without_path_info [lit "f(int a)"; lit "path_x(int b)"]
           [Signature (lit "f") [lit "int a"] [lit "a"] [];
            Signature (lit "path_x") [lit "int b"] [lit "b"] []]).
  - vm_compute. reflexivity.
  - apply Exists_cons_tl, Exists_cons_hd. split; vm_compute; reflexivity.
Defined.

(** C1 (counterexample): on the input [bad_stmt_no_parens] the run raises
    the ValueError of line 35, but wasi_vfs_ops.h, which did not exist, has
    been created and holds the header and the opening line of the struct;
    the other two output files have not been created: the outcome is
    neither all of the files nor none of them. *)
Lemma partial_output_counterexample :
  def_file bad_stmt_no_parens !! ops_h = None ∧
  (main (def_file bad_stmt_no_parens)).2 = inl (Raised ValueError 35) ∧
  (main (def_file bad_stmt_no_parens)).1 !! ops_h
    = Some (header ++ lit "struct wasi_vfs_ops {" ++ NL) ∧
  (main (def_file bad_stmt_no_parens)).1 !! vfs_h = None ∧
  (main (def_file bad_stmt_no_parens)).1 !! dispatch_h = None.
Proof. repeat split; vm_compute; reflexivity. Qed.

(** C1 (amended): when a statement of the definition file is not blank and
    does not parse (it has not the shape name(args), or one of its fragments
    has no trailing identifier), the run raises in the first emission; the
    file system is then the one before the run but for wasi_vfs_ops.h, which
    holds the header, the opening line of the struct and the members of the
    statements before the first offending one.  wasi_vfs.h and
    wasi_vfs_dispatch.h are neither created nor changed. *)
Theorem offending_statement_stops_first_emission
    (fs : gmap string str) raw :
  fs !! filename = Some raw →
  Exists offending (lines_of (universal_newlines raw)) →
  ∃ e pre l post sigs,
    lines_of (universal_newlines raw) = pre ++ l :: post ∧
    signatures pre = inr sigs ∧
    offending l ∧
    main fs =
      (<[ops_h := header ++ (lit "struct wasi_vfs_ops {" ++ NL)
                  ++ concat (map member_decl sigs)]> fs,
       inl e).
Proof.
  intros Hfs Hex. apply signatures_offending in Hex as [e He].
  destruct (signatures_failure _ _ He) as (pre & l & post & sigs & Hl & Hs & Hne & Hp).
  exists e, pre, l, post, sigs. repeat split; try done.
  - by exists e.
  - by apply (main_parse_failure fs raw pre l post sigs e).
Qed.

Lemma offending_statement_witness :
  ∃ e pre l post sigs,
    lines_of (universal_newlines bad_stmt_no_parens) = pre ++ l :: post ∧
    signatures pre = inr sigs ∧
    offending l ∧
    main (def_file bad_stmt_no_parens) =
      (<[ops_h := header ++ (lit "struct wasi_vfs_ops {" ++ NL)
                  ++ concat (map member_decl sigs)]>
         (def_file bad_stmt_no_parens),
       inl e).
Proof.
  apply (offending_statement_stops_first_emission
           (def_file bad_stmt_no_parens) bad_stmt_no_parens).
  - vm_compute. reflexivity.
  - apply Exists_cons_hd. split.
    + vm_compute. reflexivity.
    + exists (Raised ValueError 35). vm_compute. reflexivity.
Defined.

(** C6 (counterexample): the runs on [f(123);] and on [f(4 5);] stop at
    fragments that differ, with the same exception, the AttributeError of
    line 45, and with the same text in the one output file they created:
    nothing the run produces tells which fragment was at fault. *)
Lemma diagnostic_counterexample :
  (main (def_file (lit "f(123);"))).2 = inl (Raised AttributeError 45) ∧
  (main (def_file (lit "f(4 5);"))).2 = inl (Raised AttributeError 45) ∧
  (main (def_file (lit "f(123);"))).1 !! ops_h
  = (main (def_file (lit "f(4 5);"))).1 !! ops_h.
Proof. repeat split; vm_compute; reflexivity. Qed.

(** C6 (amended): when a fragment of a statement of the definition file has
    no trailing identifier, the empty fragment of [name()] included, the run
    ends with an uncaught exception and the exit status 1.  The exception is
    one of the three a parse can raise, none of which carries text of the
    file; it is the AttributeError of line 45 when the statements before
    this one parse. *)
Theorem missing_identifier_is_fatal (fs : gmap string str) raw l a :
  fs !! filename = Some raw →
  l ∈ lines_of (universal_newlines raw) →
  fragment_of l a →
  lacks_identifier a →
  (∃ e, (main fs).2 = inl e ∧ exit_status (main fs).2 = 1%nat ∧
        (e = Raised ValueError 35 ∨ e = Raised ValueError 36
         ∨ e = Raised AttributeError 45)) ∧
  (∀ pre post sigs,
     lines_of (universal_newlines raw) = pre ++ l :: post →
     signatures pre = inr sigs →
     (main fs).2 = inl (Raised AttributeError 45)).
Proof.
  intros Hfs Hl Hfrag Hlack.
  destruct (fragment_offending l a Hfrag Hlack) as [Hne Hp]. split.
  - assert (Exists offending (lines_of (universal_newlines raw))) as Hex.
    { apply Exists_exists. exists l. split; [done|]. split; [done|]. eauto. }
    apply signatures_offending in Hex as [e He].
    destruct (signatures_failure _ _ He)
      as (pre & l' & post & sigs & Hl' & Hs & Hne' & Hp').
    exists e.
    rewrite (main_parse_failure fs raw pre l' post sigs e) by done.
    split; [done|]. split; [done|]. by apply signatures_inl in He.
  - intros pre post sigs Hlines Hs.
    by rewrite (main_parse_failure fs raw pre l post sigs _ Hfs Hlines Hs Hne Hp).
Qed.

Lemma missing_identifier_witness :
  (∃ e, (main (def_file (lit "f();"))).2 = inl e ∧
        exit_status (main (def_file (lit "f();"))).2 = 1%nat ∧
        (e = Raised ValueError 35 ∨ e = Raised ValueError 36
         ∨ e = Raised AttributeError 45)) ∧
  (∀ pre post sigs,
     lines_of (universal_newlines (lit "f();")) = pre ++ lit "f()" :: post →
     signatures pre = inr sigs →
     (main (def_file (lit "f();"))).2 = inl (Raised AttributeError 45)).
Proof.
  apply (missing_identifier_is_fatal (def_file (lit "f();")) (lit "f();")
           (lit "f()") []).
  - vm_compute. reflexivity.
  - apply list_elem_of_here.
  - exists (lit "f("), [], (lit "f"), [].
    repeat split; [vm_compute; reflexivity.. | apply list_elem_of_here].
  - refine (proj1 (re_name_search_strip_None []) _). vm_compute. reflexivity.
Defined.

(** C4 (counterexample): in this definition file the first argument of [f]
    is written [unsigned], a line feed, [int a] and a blank; the member and
    the prototype written for it read [unsignedint a]: the line feed and the
    blank of the argument's text are gone. *)
Lemma argument_text_counterexample :
  (main (def_file split_argument)).2 = inr tt ∧
  (main (def_file split_argument)).1 !! ops_h
    = Some (header ++ lit "struct wasi_vfs_ops {" ++ NL
            ++ TAB ++ lit "int (*f)(unsignedint a, char *b);" ++ NL
            ++ lit "};" ++ NL) ∧
  (main (def_file split_argument)).1 !! vfs_h
    = Some (header ++ lit "int wasi_vfs_f(unsignedint a, char *b);" ++ NL).
Proof. repeat split; vm_compute; reflexivity. Qed.

(** C4 (amended): a statement of the definition file holds no line feed
    (they are removed from the whole text first).  When it parses, it reads
    [name(f1,...,fn)rest]; the member of the struct declaration and the
    prototype list the fragments [f1] to [fn] in this order, each without
    the blanks at its two ends and otherwise unchanged, joined by a comma and
    a space. *)
Theorem argument_text_preserved content line s prefix qual out :
  line ∈ lines_of content →
  Py.truthy (Py.strip line) = true →
  parse_statement (Py.strip line) = inr s →
  (10 ∉ line) ∧
  ∃ frags rest,
    Py.strip line
      = sig_name s ++ lparen :: Py.join [comma] frags ++ rparen :: rest ∧
    Forall2 (λ frag arg,
               arg = Py.strip frag ∧
               ∃ l r, frag = l ++ arg ++ r ∧ blank l ∧ blank r)
            frags (sig_args s) ∧
    process_line VfsStructDecl prefix qual line out =
      (out ++ TAB ++ lit "int (*" ++ sig_name s ++ lit ")("
           ++ Py.join (lit ", ") (sig_args s) ++ lit ");" ++ NL,
       inr tt) ∧
    process_line VfsPrototype prefix qual line out =
      (out ++ lit "int " ++ prefix ++ sig_name s ++ lit "("
           ++ Py.join (lit ", ") (sig_args s) ++ lit ");" ++ NL,
       inr tt).
Proof.
  intros Hl Hne Hp. split; [by eapply lines_of_no_line_feed|].
  destruct (parse_statement_inr _ _ Hp) as (block & rest & Hline & Hargs & _).
  exists (Py.split comma block), rest. split; [by rewrite join_split|].
  split.
  - rewrite Hargs. apply Forall2_fmap_r, Forall_Forall2_diag, Forall_forall.
    intros frag _. split; [done|]. apply strip_decomp.
  - rewrite !(process_line_ok _ _ _ _ _ s) by done.
    by rewrite !emit_declaration.
Qed.

Lemma argument_text_witness :
  (10 ∉ lit "f(unsignedint a , char *b)") ∧
  ∃ frags rest,
    Py.strip (lit "f(unsignedint a , char *b)")
      = lit "f" ++ lparen :: Py.join [comma] frags ++ rparen :: rest ∧
    Forall2 (λ frag arg,
               arg = Py.strip frag ∧
               ∃ l r, frag = l ++ arg ++ r ∧ blank l ∧ blank r)
            frags [lit "unsignedint a"; lit "char *b"] ∧
    process_line VfsStructDecl default_prefix default_qual
      (lit "f(unsignedint a , char *b)") [] =
      ([] ++ TAB ++ lit "int (*" ++ lit "f" ++ lit ")("
          ++ Py.join (lit ", ") [lit "unsignedint a"; lit "char *b"]
          ++ lit ");" ++ NL,
       inr tt) ∧
    process_line VfsPrototype default_prefix default_qual
      (lit "f(unsignedint a , char *b)") [] =
      ([] ++ lit "int " ++ default_prefix ++ lit "f" ++ lit "("
          ++ Py.join (lit ", ") [lit "unsignedint a"; lit "char *b"]
          ++ lit ");" ++ NL,
       inr tt).
Proof.
  apply (argument_text_preserved split_argument
           (lit "f(unsignedint a , char *b)")
           (Signature (lit "f") [lit "unsignedint a"; lit "char *b"]
              [lit "a"; lit "b"] [])
           default_prefix default_qual []).
  - apply list_elem_of_here.
  - vm_compute. reflexivity.
  - vm_compute. reflexivity.
Defined.

(** C8: a second run of the generator, on the file system the first run
    left, ends the same way and leaves the same files; and the text an
    emission adds to its sink, as well as the way it ends, are the same for
    any two statement lists with the same signatures and for any two states
    of the sink. *)
Theorem generator_deterministic
    (fs : gmap string str) lines lines' sigs mode prefix qual out out' :
  signatures lines = inr sigs →
  signatures lines' = inr sigs →
  main (main fs).1 = main fs ∧
  (process lines mode prefix qual out).2
  = (process lines' mode prefix qual out').2 ∧
  ∃ text,
    (process lines mode prefix qual out).1 = out ++ text ∧
    (process lines' mode prefix qual out').1 = out' ++ text.
Proof.
  intros Hs Hs'. split; [apply main_idempotent|].
  rewrite !process_shape.
  rewrite (for_each_signatures _ _ _ lines sigs) by done.
  rewrite (for_each_signatures _ _ _ lines' sigs) by done.
  pose proof (uniform_for_each sigs (emit_signature mode prefix qual)
                (uniform_emit_signature mode prefix qual)) as Hu.
  rewrite (Hu (out ++ _)), (Hu (out' ++ _)).
  destruct (for_each sigs (emit_signature mode prefix qual) []) as [w [e|[]]];
    cbn [fst snd]; (split; [done|]).
  - exists (header ++ opening mode prefix qual ++ w).
    by rewrite <- !app_assoc.
  - exists (header ++ opening mode prefix qual ++ w ++ closing mode).
    by rewrite <- !app_assoc.
Qed.

Lemma generator_deterministic_witness :
  main (main (def_file (close_stmt ++ lit ";"))).1
  = main (def_file (close_stmt ++ lit ";")) ∧
  (process [close_stmt; []] VfsDefine default_prefix default_qual []).2
  = (process [lit " " ++ close_stmt] VfsDefine default_prefix default_qual
       (lit "x")).2 ∧
  ∃ text,
    (process [close_stmt; []] VfsDefine default_prefix default_qual []).1
    = [] ++ text ∧
    (process [lit " " ++ close_stmt] VfsDefine default_prefix default_qual
       (lit "x")).1
    = lit "x" ++ text.
Proof.
  apply (generator_deterministic (def_file (close_stmt ++ lit ";"))
           [close_stmt; []] [lit " " ++ close_stmt]
           [Signature (lit "close") [lit "struct path_info *fdinfo"]
              [lit "fdinfo"] [lit "fdinfo"]]).
  - vm_compute. reflexivity.
  - vm_compute. reflexivity.
Defined.

(** * Further properties of the generator *)

(** ** Whole runs *)

Lemma emit_trampoline prefix qual s out :
  dispatchable s →
  emit_signature VfsDefine prefix qual s out = (out ++ trampoline s, inr tt).
Proof.
  intros Hd. unfold trampoline, dispatchable in *.
  destruct (Py.startswith (lit "path_") (sig_name s)) eqn:Hp.
  - destruct (sig_path_info s) as [|ref cands] eqn:Hpia; [by destruct Hd|].
    rewrite (emit_dispatch_path _ _ _ ref cands) by done.
    by rewrite <- !app_assoc.
  - by rewrite emit_dispatch_fd.
Qed.

Lemma for_each_trampolines prefix qual sigs out :
  Forall dispatchable sigs →
  for_each sigs (emit_signature VfsDefine prefix qual) out
  = (out ++ concat (map trampoline sigs), inr tt).
Proof.
  intros Hall. revert out.
  induction Hall as [|s sigs Hs _ IH]; intros out; cbn [for_each map concat].
  - unfold ret. by rewrite app_nil_r.
  - unfold bind. rewrite emit_trampoline by done. rewrite IH.
    by rewrite <- app_assoc.
Qed.

Lemma process_declarations lines sigs mode prefix qual out :
  mode ≠ VfsDefine →
  signatures lines = inr sigs →
  process lines mode prefix qual out
  = (out ++ header ++ opening mode prefix qual
         ++ concat (map (declaration mode prefix) sigs) ++ closing mode,
     inr tt).
Proof.
  intros Hm Hs.
  rewrite process_shape, (for_each_signatures _ _ _ _ sigs) by done.
  rewrite for_each_declarations by done. by rewrite <- !app_assoc.
Qed.

Lemma process_ops lines sigs out :
  signatures lines = inr sigs →
  process lines VfsStructDecl default_prefix default_qual out
  = (out ++ ops_artifact sigs, inr tt).
Proof.
  intros Hs. rewrite (process_declarations _ sigs) by done.
  unfold ops_artifact. cbn [opening closing declaration].
  by rewrite <- !app_assoc.
Qed.

Lemma process_vfs lines sigs out :
  signatures lines = inr sigs →
  process lines VfsPrototype default_prefix default_qual out
  = (out ++ vfs_artifact sigs, inr tt).
Proof.
  intros Hs. rewrite (process_declarations _ sigs) by done.
  unfold vfs_artifact. cbn [opening closing declaration].
  by rewrite app_nil_l, app_nil_r.
Qed.

Lemma process_dispatch lines sigs out :
  signatures lines = inr sigs →
  Forall dispatchable sigs →
  process lines VfsDefine default_prefix default_qual out
  = (out ++ dispatch_artifact sigs, inr tt).
Proof.
  intros Hs Hall.
  rewrite process_shape, (for_each_signatures _ _ _ _ sigs) by done.
  rewrite for_each_trampolines by done. unfold dispatch_artifact.
  cbn [opening closing]. by rewrite ?app_nil_r, <- ?app_assoc, ?app_nil_r.
Qed.

Lemma main_success (fs : gmap string str) raw sigs :
  fs !! filename = Some raw →
  signatures (lines_of (universal_newlines raw)) = inr sigs →
  Forall dispatchable sigs →
  main fs =
    (<[dispatch_h := dispatch_artifact sigs]>
       (<[vfs_h := vfs_artifact sigs]>
          (<[ops_h := ops_artifact sigs]> fs)),
     inr tt).
Proof.
  intros Hfs Hs Hall. rewrite (main_read fs raw) by done. unfold bind.
  rewrite (with_open_w_run ops_h), (process_ops _ sigs) by done.
  cbn [fst snd].
  rewrite (with_open_w_run vfs_h), (process_vfs _ sigs) by done.
  cbn [fst snd].
  rewrite (with_open_w_run dispatch_h), (process_dispatch _ sigs) by done.
  done.
Qed.

Lemma signatures_blank lines :
  Forall (λ l, Py.truthy (Py.strip l) = false) lines →
  signatures lines = inr [].
Proof.
  induction 1 as [|l lines Hl _ IH]; simpl; [done|]. by rewrite Hl.
Qed.

Lemma lstrip_blank s : blank s → Py.lstrip s = [].
Proof. induction 1 as [|x s Hx _ IH]; simpl; [done|]. by rewrite Hx. Qed.

Lemma strip_blank s : blank s → Py.strip s = [].
Proof. intros H. unfold Py.strip. by rewrite lstrip_blank. Qed.

Lemma universal_newlines_elem x s :
  x ∈ universal_newlines s → x = 10 ∨ x ∈ s.
Proof.
  induction s as [|y r IH]; [by intros ?%not_elem_of_nil|].
  assert (∀ l, x ∈ y :: l → (x ∈ l → x = 10 ∨ x ∈ r) → x = 10 ∨ x ∈ y :: r)
    as Hcons.
  { intros l [->|Hl]%elem_of_cons Hr; [right; by constructor|].
    destruct (Hr Hl); [by left | right; by constructor]. }
  assert (x ∈ universal_newlines r → x = 10 ∨ x ∈ y :: r) as Htail.
  { intros [?|?]%IH; [by left | right; by constructor]. }
  assert (x ∈ 10 :: universal_newlines r → x = 10 ∨ x ∈ y :: r) as Hlf.
  { intros [->|?]%elem_of_cons; [by left | by apply Htail]. }
  cbn [universal_newlines].
  repeat match goal with
         | |- context [match ?v with _ => _ end] => is_var v; destruct v
         end;
    first [exact Htail | exact Hlf | intros H; by apply (Hcons _ H)].
Qed.

Lemma split_sep_free sep s l : l ∈ Py.split sep s → sep ∉ l.
Proof.
  revert l. induction s as [|y r IH]; intros l; simpl.
  - intros ->%list_elem_of_singleton. apply not_elem_of_nil.
  - destruct (N.eqb_spec y sep) as [->|Hy].
    + intros [->|Hl]%elem_of_cons; [apply not_elem_of_nil | by apply IH].
    + pose proof (split_nonempty sep r) as Hne.
      destruct (Py.split sep r) as [|h t]; [done|].
      intros [->|Hl]%elem_of_cons.
      * intros [?|?]%elem_of_cons; [done|]. by apply (IH h); [constructor|].
      * apply IH. by constructor.
Qed.

(** X1: when every statement of the definition file parses and every path_
    signature has a recorded path-info argument, the run ends without error
    and the three output files hold the struct declaration, the prototypes
    and the trampolines of the signatures, in the order of the statements;
    no other file is changed. *)
Theorem successful_run (fs : gmap string str) raw sigs :
  fs !! filename = Some raw →
  signatures (lines_of (universal_newlines raw)) = inr sigs →
  Forall dispatchable sigs →
  main fs =
    (<[dispatch_h := header ++ concat (map trampoline sigs)]>
       (<[vfs_h := header ++ concat (map (prototype default_prefix) sigs)]>
          (<[ops_h := header ++ (lit "struct wasi_vfs_ops {" ++ NL)
                      ++ concat (map member_decl sigs) ++ lit "};" ++ NL]>
             fs)),
     inr tt).
Proof. apply main_success. Qed.

Lemma successful_run_witness :
  main (def_file (close_stmt ++ lit ";" ++ path_link_stmt ++ lit ";")) =
    (<[dispatch_h := header
         ++ concat (map trampoline
              [Signature (lit "close") [lit "struct path_info *fdinfo"]
                 [lit "fdinfo"] [lit "fdinfo"];
               Signature (lit "path_link")
                 [lit "struct path_info *old"; lit "struct path_info *new"]
                 [lit "old"; lit "new"] [lit "old"; lit "new"]])]>
       (<[vfs_h := header
            ++ concat (map (prototype default_prefix)
                 [Signature (lit "close") [lit "struct path_info *fdinfo"]
                    [lit "fdinfo"] [lit "fdinfo"];
                  Signature (lit "path_link")
                    [lit "struct path_info *old"; lit "struct path_info *new"]
                    [lit "old"; lit "new"] [lit "old"; lit "new"]])]>
          (<[ops_h := header ++ (lit "struct wasi_vfs_ops {" ++ NL)
               ++ concat (map member_decl
                    [Signature (lit "close") [lit "struct path_info *fdinfo"]
                       [lit "fdinfo"] [lit "fdinfo"];
                     Signature (lit "path_link")
                       [lit "struct path_info *old";
                        lit "struct path_info *new"]
                       [lit "old"; lit "new"] [lit "old"; lit "new"]])
               ++ lit "};" ++ NL]>
             (def_file (close_stmt ++ lit ";" ++ path_link_stmt ++ lit ";")))),
     inr tt).
Proof.
  apply (successful_run _
           (close_stmt ++ lit ";" ++ path_link_stmt ++ lit ";")).
  - vm_compute. reflexivity.
  - vm_compute. reflexivity.
  - repeat constructor; intros _; vm_compute; discriminate.
Defined.

(** X2: without a definition file the run ends with the FileNotFoundError
    of line 19 before any output file is opened: the file system is left as
    it was. *)
Theorem missing_definition_file (fs : gmap string str) :
  fs !! filename = None →
  main fs = (fs, inl (Raised FileNotFoundError 19)) ∧
  exit_status (main fs).2 = 1%nat.
Proof. intros H. by rewrite main_missing. Qed.

Lemma missing_definition_file_witness :
  main (∅ : gmap string str) = (∅, inl (Raised FileNotFoundError 19)) ∧
  exit_status (main (∅ : gmap string str)).2 = 1%nat.
Proof. apply missing_definition_file. vm_compute. reflexivity. Defined.

(** X3: a definition file that holds nothing but white space, line breaks
    and semicolons, the empty file included, is accepted: the run ends
    without error, the struct declaration has no member and the other two
    artifacts are the header alone. *)
Theorem blank_definition_file (fs : gmap string str) raw :
  fs !! filename = Some raw →
  Forall (λ c, Py.isspace c = true ∨ c = semicolon) raw →
  main fs =
    (<[dispatch_h := header]>
       (<[vfs_h := header]>
          (<[ops_h := header ++ lit "struct wasi_vfs_ops {" ++ NL
                      ++ lit "};" ++ NL]> fs)),
     inr tt).
Proof.
  intros Hfs Hraw.
  rewrite (main_success fs raw []); [| done | | constructor].
  - unfold dispatch_artifact, vfs_artifact, ops_artifact. cbn [map concat].
    by rewrite ?app_nil_r, <- ?app_assoc.
  - apply signatures_blank, Forall_forall. intros l Hl.
    rewrite strip_blank; [done|]. apply Forall_forall. intros c Hc.
    destruct (N.eqb_spec c semicolon) as [->|Hne];
      [by apply (split_sep_free _ _ _ Hl) in Hc|].
    apply (split_elem _ _ _ _ Hl) in Hc.
    apply remove_char_elem in Hc as [_ Hc].
    apply universal_newlines_elem in Hc as [->|Hc]; [done|].
    rewrite Forall_forall in Hraw. by destruct (Hraw c Hc).
Qed.

Lemma blank_definition_file_witness :
  main (def_file (lit " ; " ++ NL ++ lit ";")) =
    (<[dispatch_h := header]>
       (<[vfs_h := header]>
          (<[ops_h := header ++ lit "struct wasi_vfs_ops {" ++ NL
                      ++ lit "};" ++ NL]>
             (def_file (lit " ; " ++ NL ++ lit ";")))),
     inr tt).
Proof.
  apply (blank_definition_file _ (lit " ; " ++ NL ++ lit ";")).
  - vm_compute. reflexivity.
  - repeat constructor; first [left; reflexivity | right; reflexivity].
Defined.



Lemma process_dispatch_stops lines pre s post out :
  signatures lines = inr (pre ++ s :: post) →
  Forall dispatchable pre →
  Py.startswith (lit "path_") (sig_name s) = true →
  sig_path_info s = [] →
  process lines VfsDefine default_prefix default_qual out
  = (out ++ header ++ concat (map trampoline pre) ++ trampoline_head s,
     inl (Raised IndexError 66)).
Proof.
  intros Hs Hpre Hp Hpia. rewrite process_shape.
  rewrite (for_each_signatures _ _ _ _ (pre ++ s :: post)) by done.
  rewrite for_each_app. unfold bind at 1.
  rewrite for_each_trampolines by done.
  cbn [for_each]. unfold bind at 1.
  rewrite emit_dispatch_no_path_info by done.
  cbn [opening]. by rewrite ?app_nil_r, <- ?app_assoc.
Qed.

(** X5: when every statement parses but a path_ signature has no recorded
    path-info argument, the run ends with the IndexError of line 66 in the
    third emission: wasi_vfs_ops.h and wasi_vfs.h are complete, and
    wasi_vfs_dispatch.h is left holding the header, the trampolines of the
    signatures before the first such signature and the two opening lines of
    its own trampoline. *)
Theorem dispatch_failure_run (fs : gmap string str) raw pre s post :
  fs !! filename = Some raw →
  signatures (lines_of (universal_newlines raw)) = inr (pre ++ s :: post) →
  Forall dispatchable pre →
  Py.startswith (lit "path_") (sig_name s) = true →
  sig_path_info s = [] →
  main fs =
    (<[dispatch_h := header ++ concat (map trampoline pre)
                     ++ trampoline_head s]>
       (<[vfs_h := vfs_artifact (pre ++ s :: post)]>
          (<[ops_h := ops_artifact (pre ++ s :: post)]> fs)),
     inl (Raised IndexError 66)).
Proof.
  intros Hfs Hs Hpre Hp Hpia. rewrite (main_read fs raw) by done. unfold bind.
  rewrite (with_open_w_run ops_h), (process_ops _ (pre ++ s :: post)) by done.
  cbn [fst snd].
  rewrite (with_open_w_run vfs_h), (process_vfs _ (pre ++ s :: post)) by done.
  cbn [fst snd].
  rewrite (with_open_w_run dispatch_h).
  by rewrite (process_dispatch_stops _ pre s post).
Qed.

Lemma dispatch_failure_run_witness :
  main (def_file (lit "f(int a);path_x(int b)")) =
    (<[dispatch_h := header
         ++ concat (map trampoline
                      [Signature (lit "f") [lit "int a"] [lit "a"] []])
         ++ trampoline_head (Signature (lit "path_x") [lit "int b"]
                               [lit "b"] [])]>
       (<[vfs_h := vfs_artifact
            ([Signature (lit "f") [lit "int a"] [lit "a"] []]
             ++ Signature (lit "path_x") [lit "int b"] [lit "b"] [] :: [])]>
          (<[ops_h := ops_artifact
               ([Signature (lit "f") [lit "int a"] [lit "a"] []]
                ++ Signature (lit "path_x") [lit "int b"] [lit "b"] [] :: [])]>
             (def_file (lit "f(int a);path_x(int b)")))),
     inl (Raised IndexError 66)).
Proof.
  apply (dispatch_failure_run _ (lit "f(int a);path_x(int b)")).
  - vm_compute. reflexivity.
  - vm_compute. reflexivity.
  - repeat constructor. intros H. vm_compute in H. discriminate.
  - vm_compute. reflexivity.
  - reflexivity.
Defined.

(** X6: a run, whether it fails or not, changes no file but the three
    outputs; in particular it never writes to the definition file. *)
Theorem run_touches_only_outputs (fs : gmap string str) name :
  name ≠ ops_h → name ≠ vfs_h → name ≠ dispatch_h →
  (main fs).1 !! name = fs !! name.
Proof.
  intros H1 H2 H3. destruct (fs !! filename) as [raw|] eqn:Hfs.
  - rewrite (main_read fs raw) by done. unfold bind.
    rewrite (with_open_w_run ops_h).
    destruct (process _ VfsStructDecl _ _ []) as [o1 [e1|[]]]; cbn [fst snd].
    { by rewrite lookup_insert_ne. }
    rewrite (with_open_w_run vfs_h).
    destruct (process _ VfsPrototype _ _ []) as [o2 [e2|[]]]; cbn [fst snd].
    { by rewrite !lookup_insert_ne. }
    rewrite (with_open_w_run dispatch_h). cbn [fst].
    by rewrite !lookup_insert_ne.
  - by rewrite main_missing.
Qed.

Lemma run_touches_only_outputs_witness :
  (main (def_file bad_stmt_no_parens)).1 !! filename
  = def_file bad_stmt_no_parens !! filename.
Proof. apply run_touches_only_outputs; done. Defined.






(** ** The identifiers the parser extracts *)

Lemma identifier_word g : identifier g → Forall (λ x, Re.word x = true) g.
Proof.
  intros (c & r & -> & Hc & Hr). constructor; [|done].
  unfold Re.word. rewrite Hc. by rewrite orb_true_r.
Qed.

Lemma identifier_snoc g : identifier g → ∃ g0 c, g = g0 ++ [c] ∧ Re.word c = true.
Proof.
  intros Hg. pose proof (identifier_word g Hg) as Hw.
  destruct Hg as (c & r & -> & _ & _).
  destruct (exists_last (l := c :: r)) as (g0 & x & E); [done|].
  exists g0, x. split; [done|]. rewrite E in Hw.
  by apply Forall_app in Hw as [_ Hw%Forall_inv].
Qed.

(** The match found is the longest suffix that is an identifier. *)
Lemma re_name_search_longest s g :
  Re.re_name_search s = Some g →
  ∀ pre' g', identifier g' →
    s = pre' ++ g' ∨ s = pre' ++ g' ++ [10] →
    (length g' ≤ length g)%nat.
Proof.
  induction s as [|x r IH]; intros Hs pre' g' Hg' Hdec; [done|].
  rewrite re_name_search_cons in Hs.
  destruct (Re.name_here (x :: r)) as [g1|] eqn:Hh.
  - injection Hs as ->. apply name_here_Some in Hh as [Hg [Hsg|Hsg]].
    + destruct Hdec as [E|E]; rewrite Hsg in E;
        apply (f_equal length) in E; rewrite !length_app in E; simpl in E; lia.
    + destruct Hdec as [E|E]; rewrite Hsg in E.
      * destruct (identifier_snoc g' Hg') as (g0 & c & -> & Hc).
        rewrite app_assoc in E. apply app_inj_tail in E as [_ <-].
        by vm_compute in Hc.
      * rewrite app_assoc in E. apply app_inj_tail in E as [-> _].
        rewrite length_app. lia.
  - destruct pre' as [|y pre']; simpl in Hdec.
    + assert (Re.name_here (x :: r) = Some g') as Hh'
        by (apply name_here_Some; split; [done|]; by destruct Hdec; [left|right]).
      congruence.
    + apply (IH Hs pre' g' Hg').
      destruct Hdec as [[= _ E]|[= _ E]]; [by left | by right].
Qed.

(** X9: the identifier forwarded for an argument is a suffix of the
    argument's trimmed text, has the shape of the pattern (a lowercase letter,
    then lowercase letters, digits and underscores), and is the longest such
    suffix: an upper-case letter cuts the name short. *)
Theorem forwarded_identifier line s :
  parse_statement line = inr s →
  Forall2 (λ arg id,
             identifier id ∧ (∃ pre, arg = pre ++ id) ∧
             ∀ pre' g', identifier g' → arg = pre' ++ g' →
                        (length g' ≤ length id)%nat)
          (sig_args s) (sig_idents s).
Proof.
  intros Hp.
  destruct (parse_statement_inr _ _ Hp) as (block & rest & _ & -> & Hids & _).
  apply idents_of_inr in Hids. apply Forall2_fmap_l.
  eapply Forall2_impl; [exact Hids|]. intros a g Hs. simpl in Hs.
  destruct (re_name_search_Some _ _ Hs) as (Hg & pre & [E|E]).
  - split; [done|]. split; [by exists pre|].
    intros pre' g' Hg' E'. apply (re_name_search_longest _ _ Hs pre' g' Hg').
    by left.
  - rewrite (app_assoc pre g [10]) in E. by apply strip_last in E.
Qed.

Lemma forwarded_identifier_witness :
  Forall2 (λ arg id,
             identifier id ∧ (∃ pre, arg = pre ++ id) ∧
             ∀ pre' g', identifier g' → arg = pre' ++ g' →
                        (length g' ≤ length id)%nat)
          [lit "int fooBar"] [lit "ar"].
Proof.
  apply (forwarded_identifier (lit "f(int fooBar)")
           (Signature (lit "f") [lit "int fooBar"] [lit "ar"] [])).
  vm_compute. reflexivity.
Defined.

Lemma word_not_space c : Re.word c = true → Py.isspace c = false.
Proof.
  intros Hw. apply not_true_is_false. intros Hs.
  unfold Re.word, Re.lower, Re.digit in Hw. unfold Py.isspace in Hs.
  repeat first
    [ rewrite orb_true_iff in Hw | rewrite andb_true_iff in Hw
    | rewrite N.leb_le in Hw | rewrite N.eqb_eq in Hw
    | rewrite orb_true_iff in Hs | rewrite andb_true_iff in Hs
    | rewrite N.leb_le in Hs | rewrite N.eqb_eq in Hs ].
  lia.
Qed.

Lemma startswith_spec p s :
  Py.startswith p s = true ↔ ∃ t, s = p ++ t.
Proof.
  revert s. induction p as [|a p IH]; intros s; simpl.
  - split; [by exists s | done].
  - destruct s as [|b s].
    + split; [done | by intros [t ?]].
    + rewrite andb_true_iff, N.eqb_eq, IH. split.
      * intros [-> [t ->]]. by exists t.
      * intros [t [= -> ->]]. split; [done | by exists t].
Qed.

Lemma path_info_here_Some s g :
  Re.path_info_here s = Some g →
  identifier g ∧
  ∃ tail, s = Re.path_info_lit ++ g ++ tail ∧ (tail = [] ∨ tail = [10]).
Proof.
  unfold Re.path_info_here.
  destruct (Py.startswith Re.path_info_lit s) eqn:Hsw; [|done].
  apply startswith_spec in Hsw as [t ->].
  rewrite drop_app_length. intros [Hg Ht]%name_here_Some. split; [done|].
  destruct Ht as [-> | ->]; [exists [] | exists [10]];
    (split; [by rewrite ?app_nil_r | by auto]).
Qed.

Lemma re_path_info_search_Some s g :
  Re.re_path_info_search s = Some g →
  identifier g ∧
  ∃ pre tail,
    s = pre ++ Re.path_info_lit ++ g ++ tail ∧ (tail = [] ∨ tail = [10]).
Proof.
  induction s as [|x r IH].
  - intros H. by vm_compute in H.
  - cbn [Re.re_path_info_search].
    destruct (Re.path_info_here (x :: r)) as [g'|] eqn:Hh.
    + intros [= ->]. apply path_info_here_Some in Hh as (Hg & tail & E & Ht).
      split; [done|]. by exists [], tail.
    + intros Hr. destruct (IH Hr) as (Hg & pre & tail & -> & Ht).
      split; [done|]. by exists (x :: pre), tail.
Qed.

Lemma lstrip_keeps pre c rest :
  Py.isspace c = false →
  ∃ pre', Py.lstrip (pre ++ c :: rest) = pre' ++ c :: rest.
Proof.
  intros Hc. induction pre as [|y pre [pre' IH]]; simpl.
  - rewrite Hc. by exists [].
  - destruct (Py.isspace y); [by exists pre' | by exists (y :: pre)].
Qed.

Lemma lstrip_blank_app b c rest :
  blank b → Py.isspace c = false → Py.lstrip (b ++ c :: rest) = c :: rest.
Proof.
  intros Hb Hc. induction Hb as [|y b Hy _ IH]; simpl.
  - by rewrite Hc.
  - by rewrite Hy.
Qed.

Lemma rstrip_keeps z c tail :
  Py.isspace c = false → blank tail →
  Py.rstrip (z ++ c :: tail) = z ++ [c].
Proof.
  intros Hc Ht. unfold Py.rstrip.
  rewrite rev_app_distr. simpl. rewrite <- app_assoc. simpl.
  rewrite lstrip_blank_app; [| by apply Forall_rev | done].
  simpl. by rewrite rev_involutive.
Qed.

(** After a character that is neither a word character nor a line feed,
    an identifier that ends the text is what the search finds. *)
Lemma re_name_search_after p c g :
  Re.word c = false → c ≠ 10 → identifier g →
  Re.re_name_search (p ++ c :: g) = Some g.
Proof.
  intros Hc Hlf Hg. induction p as [|x p IH].
  - simpl app. rewrite re_name_search_cons.
    assert (Re.lower c = false) as Hl.
    { unfold Re.word in Hc.
      destruct (Re.lower c); [by rewrite orb_true_r in Hc | done]. }
    assert (Re.name_here (c :: g) = None) as ->
      by (cbn [Re.name_here]; by rewrite Hl).
    destruct Hg as (c1 & r1 & -> & Hc1 & Hr1).
    rewrite re_name_search_cons.
    assert (Re.name_here (c1 :: r1) = Some (c1 :: r1)) as ->; [|done].
    apply name_here_Some. split; [by exists c1, r1 | by left].
  - simpl app. rewrite re_name_search_cons.
    destruct (Re.name_here (x :: p ++ c :: g)) as [g1|] eqn:Hh; [|done].
    exfalso. apply name_here_Some in Hh as [Hg1 Hs].
    apply identifier_word in Hg1. rewrite Forall_forall in Hg1.
    assert (c ∈ x :: p ++ c :: g) as Hin
      by (apply elem_of_cons; right; apply elem_of_app; right; by constructor).
    destruct Hs as [E|E]; rewrite E in Hin.
    + specialize (Hg1 c Hin). congruence.
    + apply elem_of_app in Hin as [Hin|Hin%list_elem_of_singleton]; [|done].
      specialize (Hg1 c Hin). congruence.
Qed.

(** A fragment recorded as a path-info argument has the recorded identifier
    as its forwarded identifier. *)
Lemma path_info_is_forwarded a g :
  Re.re_path_info_search a = Some g →
  Re.re_name_search (Py.strip a) = Some g.
Proof.
  intros (Hg & pre & tail & -> & Ht)%re_path_info_search_Some.
  assert (blank tail) as Hblank
    by (destruct Ht as [-> | ->]; repeat constructor).
  destruct (identifier_snoc g Hg) as (g0 & c & Eg & Hc).
  change Re.path_info_lit with (115 :: lit "truct path_info " ++ [42]).
  cbn [app]. unfold Py.strip.
  destruct (lstrip_keeps pre 115
              ((lit "truct path_info " ++ [42]) ++ g ++ tail) eq_refl)
    as [pre' ->].
  replace (pre' ++ 115 :: (lit "truct path_info " ++ [42]) ++ g ++ tail)
    with ((pre' ++ 115 :: lit "truct path_info " ++ 42 :: g0) ++ c :: tail)
    by (rewrite Eg; repeat (rewrite <- ?app_assoc; cbn [app]); done).
  rewrite rstrip_keeps by (by apply word_not_space || done).
  replace ((pre' ++ 115 :: lit "truct path_info " ++ 42 :: g0) ++ [c])
    with ((pre' ++ 115 :: lit "truct path_info ") ++ 42 :: g)
    by (rewrite Eg; repeat (rewrite <- ?app_assoc; cbn [app]); done).
  by apply re_name_search_after.
Qed.

(** X8: the identifiers recorded as path-info arguments are, in order, among
    the identifiers forwarded for the arguments: every operand of a guard and
    of the path lookup is the forwarded name of the argument it came from. *)
Theorem path_info_among_idents line s :
  parse_statement line = inr s →
  sig_path_info s `sublist_of` sig_idents s.
Proof.
  intros Hp.
  destruct (parse_statement_inr _ _ Hp) as (block & rest & _ & _ & Hids & ->).
  apply idents_of_inr in Hids. clear Hp.
  induction Hids as [|a g frags ids Hg _ IH]; [done|]. simpl.
  destruct (Re.re_path_info_search a) as [g'|] eqn:Hpi.
  - apply path_info_is_forwarded in Hpi. simpl in Hg.
    replace g' with g by congruence. by apply sublist_skip.
  - by apply sublist_cons.
Qed.

Lemma path_info_among_idents_witness :
  [lit "new"] `sublist_of` [lit "fd"; lit "new"].
Proof.
  apply (path_info_among_idents (lit "path_x(int fd, struct path_info *new)")
           (Signature (lit "path_x") [lit "int fd"; lit "struct path_info *new"]
              [lit "fd"; lit "new"] [lit "new"])).
  vm_compute. reflexivity.
Defined.

(** ** Statements and their shape *)

Lemma split_no_sep sep a : sep ∉ a → Py.split sep a = [a].
Proof.
  induction a as [|x a IH]; intros Hn; simpl; [done|].
  apply not_elem_of_cons in Hn as [Hx Ha].
  destruct (N.eqb_spec x sep) as [->|_]; [done|]. by rewrite IH.
Qed.

Lemma split_app sep a b :
  sep ∉ a → Py.split sep (a ++ sep :: b) = a :: Py.split sep b.
Proof.
  induction a as [|x a IH]; intros Hn; simpl.
  - by rewrite N.eqb_refl.
  - apply not_elem_of_cons in Hn as [Hx Ha].
    destruct (N.eqb_spec x sep) as [->|_]; [done|]. by rewrite IH.
Qed.

Lemma split_join sep l :
  l ≠ [] → Forall (λ a, sep ∉ a) l → Py.split sep (Py.join [sep] l) = l.
Proof.
  intros Hne Hall. induction Hall as [|a l Ha Hl IH]; [done|].
  destruct l as [|b l].
  - simpl. by apply split_no_sep.
  - change (Py.join [sep] (a :: b :: l))
      with (a ++ sep :: Py.join [sep] (b :: l)).
    rewrite split_app by done. by rewrite IH.
Qed.

Lemma join_elem x sep l :
  x ∈ Py.join sep l → x ∈ sep ∨ ∃ a, a ∈ l ∧ x ∈ a.
Proof.
  induction l as [|a l IH]; [by intros ?%not_elem_of_nil|].
  destruct l as [|b l].
  - simpl. intros Hx. right. exists a. split; [by constructor | done].
  - change (Py.join sep (a :: b :: l))
      with (a ++ sep ++ Py.join sep (b :: l)).
    intros [Hx|[Hx|Hx]%elem_of_app]%elem_of_app.
    + right. exists a. split; [by constructor | done].
    + by left.
    + destruct (IH Hx) as [?|(c & Hc & ?)]; [by left|].
      right. exists c. split; [by constructor | done].
Qed.

Lemma length_split c s : length (Py.split c s) = S (count_char c s).
Proof.
  induction s as [|x s IH]; simpl; [done|].
  pose proof (split_nonempty c s) as Hne.
  destruct (x =? c); simpl; [by rewrite IH|].
  by destruct (Py.split c s).
Qed.

Local Ltac decide_closed :=
  match goal with
  | |- ?P => apply (bool_decide_unpack P); vm_compute; exact I
  end.

Lemma parse_statement_assembled fn frags rest ids :
  lparen ∉ fn → rparen ∉ fn →
  frags ≠ [] →
  Forall (λ a, (comma ∉ a) ∧ (lparen ∉ a) ∧ (rparen ∉ a)) frags →
  rparen ∉ rest →
  Forall2 (λ a g, Re.re_name_search (Py.strip a) = Some g) frags ids →
  parse_statement (fn ++ lparen :: Py.join [comma] frags ++ rparen :: rest)
  = inr (Signature fn (map Py.strip frags) ids
           (omap Re.re_path_info_search frags)).
Proof.
  intros Hfl Hfr Hne Hfrags Hrest Hids.
  assert (∀ c, c ≠ comma → Forall (λ a, c ∉ a) frags →
            c ∉ Py.join [comma] frags) as Hjoin.
  { intros c Hc Hall [Hx|(a & Ha & Hx)]%join_elem.
    - by apply list_elem_of_singleton in Hx.
    - rewrite Forall_forall in Hall. by apply (Hall a Ha). }
  assert (rparen ∉ fn ++ lparen :: Py.join [comma] frags) as Hhd.
  { intros [?|[?|Hx]%elem_of_cons]%elem_of_app; [done..|].
    revert Hx. apply Hjoin; [done|].
    eapply Forall_impl; [exact Hfrags|]. by intros a (_ & _ & ?). }
  unfold parse_statement.
  replace (fn ++ lparen :: Py.join [comma] frags ++ rparen :: rest)
    with ((fn ++ lparen :: Py.join [comma] frags) ++ rparen :: rest)
    by (by rewrite <- app_assoc).
  rewrite split_app, (split_no_sep rparen rest) by done.
  rewrite split_app by done.
  rewrite (split_no_sep lparen).
  2:{ apply Hjoin; [done|].
      eapply Forall_impl; [exact Hfrags|]. by intros a (_ & ? & _). }
  cbn zeta. rewrite split_join.
  2: done.
  2:{ eapply Forall_impl; [exact Hfrags|]. by intros a (? & _ & _). }
  apply idents_of_inr in Hids. by rewrite Hids.
Qed.





(** X12: a statement with exactly one closing parenthesis raises the
    ValueError of line 36 exactly when the text before that parenthesis does
    not hold one opening parenthesis and one only. *)
Theorem opening_parenthesis_count hd tl :
  rparen ∉ hd → rparen ∉ tl →
  parse_statement (hd ++ rparen :: tl) = inl (Raised ValueError 36)
  ↔ count_char lparen hd ≠ 1%nat.
Proof.
  intros Hhd Htl. unfold parse_statement.
  rewrite split_app, (split_no_sep rparen tl) by done.
  pose proof (length_split lparen hd) as Hlen.
  destruct (Py.split lparen hd) as [|fn [|block [|x l]]]; simpl in Hlen.
  - done.
  - split; [lia | done].
  - split; [|lia].
    destruct (idents_of (Py.split comma block)) as [e|ids] eqn:Hids; [|done].
    by apply idents_of_inl in Hids as [-> _].
  - split; [lia | done].
Qed.

Lemma opening_parenthesis_count_witness :
  parse_statement (lit "f(int (a" ++ rparen :: [])
  = inl (Raised ValueError 36).
Proof.
  apply (proj2 (opening_parenthesis_count (lit "f(int (a") []
                  ltac:(decide_closed) ltac:(decide_closed))).
  vm_compute. discriminate.
Defined.

Lemma strip_elem x a : x ∈ Py.strip a → x ∈ a.
Proof.
  intros Hx. destruct (strip_decomp a) as (l & r & E & _ & _).
  rewrite E. apply elem_of_app. right. apply elem_of_app. by left.
Qed.

Lemma strip_head a c t : Py.strip a = c :: t → Py.isspace c = false.
Proof.
  unfold Py.strip. intros E.
  destruct (rstrip_decomp (Py.lstrip a)) as (r & Hr & _).
  rewrite E in Hr. by apply lstrip_head in Hr.
Qed.

Lemma strip_strip a : Py.strip (Py.strip a) = Py.strip a.
Proof.
  destruct (Py.strip a) as [|c t] eqn:E; [done|].
  pose proof (strip_head _ _ _ E) as Hc.
  destruct (exists_last (l := c :: t)) as (z & d & Ez); [done|].
  assert (Py.isspace d = false) as Hd
    by (apply (strip_last a z); by rewrite E).
  unfold Py.strip. cbn [Py.lstrip]. rewrite Hc, Ez.
  apply rstrip_keeps; [done | constructor].
Qed.

Lemma parse_statement_splits line s :
  parse_statement line = inr s →
  ∃ hd tl block,
    Py.split rparen line = [hd; tl] ∧
    Py.split lparen hd = [sig_name s; block] ∧
    sig_args s = map Py.strip (Py.split comma block) ∧
    idents_of (Py.split comma block) = inr (sig_idents s).
Proof.
  unfold parse_statement.
  destruct (Py.split rparen line) as [|hd [|tl [|? ?]]] eqn:H1; try done.
  destruct (Py.split lparen hd) as [|fn [|block [|? ?]]] eqn:H2; try done.
  destruct (idents_of (Py.split comma block)) as [e|ids] eqn:H3; [done|].
  intros [= <-]. by exists hd, tl, block.
Qed.

Lemma signature_wf line s :
  parse_statement line = inr s →
  (lparen ∉ sig_name s) ∧ (rparen ∉ sig_name s) ∧
  sig_args s ≠ [] ∧
  length (sig_idents s) = length (sig_args s) ∧
  Forall (λ a, trimmed a ∧ a ≠ [] ∧
               (comma ∉ a) ∧ (lparen ∉ a) ∧ (rparen ∉ a)) (sig_args s).
Proof.
  intros (hd & tl & block & H1 & H2 & Hargs & Hids)%parse_statement_splits.
  assert (sig_name s ∈ Py.split lparen hd) as Hfn
    by (rewrite H2; by constructor).
  assert (block ∈ Py.split lparen hd) as Hblock
    by (rewrite H2; by repeat constructor).
  assert (hd ∈ Py.split rparen line) as Hhd by (rewrite H1; by constructor).
  pose proof (split_sep_free _ _ _ Hhd) as Hr.
  split; [by apply (split_sep_free _ _ _ Hfn)|].
  split; [intros Hx; by apply Hr, (split_elem _ _ _ _ Hfn)|].
  pose proof (split_nonempty comma block) as Hne.
  apply idents_of_inr in Hids.
  split; [rewrite Hargs; by destruct (Py.split comma block)|].
  split; [rewrite Hargs, length_map; symmetry; by eapply Forall2_length|].
  rewrite Hargs. apply Forall_fmap, Forall_forall. intros a Ha. simpl.
  split; [apply strip_strip|].
  split.
  { apply list_elem_of_lookup in Ha as [i Hi].
    destruct (Forall2_lookup_l _ _ _ _ _ Hids Hi) as (g & _ & Hg).
    intros E. rewrite E in Hg. by vm_compute in Hg. }
  split; [intros Hx%strip_elem; by apply (split_sep_free _ _ _ Ha)|].
  split.
  - intros Hx%strip_elem. apply (split_sep_free _ _ _ Hblock).
    by apply (split_elem _ _ _ _ Ha).
  - intros Hx%strip_elem. apply Hr, (split_elem _ _ _ _ Hblock).
    by apply (split_elem _ _ _ _ Ha).
Qed.

(** X13: in a signature the parser returns, the name holds no parenthesis;
    there is at least one argument and one identifier for each; and every
    argument text is not empty, has no blank at either end and holds no
    comma and no parenthesis.  An operation without arguments cannot be
    declared. *)
Theorem signature_well_formed line s :
  parse_statement line = inr s →
  (lparen ∉ sig_name s) ∧ (rparen ∉ sig_name s) ∧
  sig_args s ≠ [] ∧
  length (sig_idents s) = length (sig_args s) ∧
  Forall (λ a, Py.strip a = a ∧ a ≠ [] ∧
               (comma ∉ a) ∧ (lparen ∉ a) ∧ (rparen ∉ a)) (sig_args s).
Proof. apply signature_wf. Qed.

Lemma signature_well_formed_witness :
  (lparen ∉ lit "close") ∧ (rparen ∉ lit "close") ∧
  [lit "struct path_info *fdinfo"] ≠ [] ∧
  length [lit "fdinfo"] = length [lit "struct path_info *fdinfo"] ∧
  Forall (λ a, Py.strip a = a ∧ a ≠ [] ∧
               (comma ∉ a) ∧ (lparen ∉ a) ∧ (rparen ∉ a))
    [lit "struct path_info *fdinfo"].
Proof.
  apply (signature_well_formed close_stmt
           (Signature (lit "close") [lit "struct path_info *fdinfo"]
              [lit "fdinfo"] [lit "fdinfo"])).
  vm_compute. reflexivity.
Defined.

Lemma join_cons_head sep x b rest :
  Py.join sep ((x :: b) :: rest) = x :: Py.join sep (b :: rest).
Proof. by destruct rest. Qed.

Lemma join_comma_space a r :
  Py.join (lit ", ") (a :: r) = Py.join [comma] (a :: map (cons 32) r).
Proof.
  revert a. induction r as [|b r IH]; intros a; [done|].
  change (Py.join (lit ", ") (a :: b :: r))
    with (a ++ lit ", " ++ Py.join (lit ", ") (b :: r)).
  change (Py.join [comma] (a :: map (cons 32) (b :: r)))
    with (a ++ [comma] ++ Py.join [comma] ((32 :: b) :: map (cons 32) r)).
  by rewrite join_cons_head, IH.
Qed.

Lemma strip_cons_space x : Py.strip (32 :: x) = Py.strip x.
Proof. reflexivity. Qed.

(** X14: the emitted declaration of a signature parses again to the same
    name, the same argument texts and the same identifiers: trimming the
    fragments and joining them with a comma and a space loses nothing the
    parser reads. *)
Theorem emitted_declaration_reparses line s :
  parse_statement line = inr s →
  ∃ s',
    parse_statement (sig_name s ++ lit "("
                     ++ Py.join (lit ", ") (sig_args s) ++ lit ")")
    = inr s' ∧
    sig_name s' = sig_name s ∧
    sig_args s' = sig_args s ∧
    sig_idents s' = sig_idents s.
Proof.
  intros Hp. destruct (signature_wf _ _ Hp) as (Hl & Hr & Hne & _ & Hall).
  assert (Forall2 (λ a g, Re.re_name_search (Py.strip a) = Some g)
            (sig_args s) (sig_idents s)) as Hids.
  { destruct (parse_statement_splits _ _ Hp)
      as (hd & tl & block & _ & _ & -> & Hids).
    apply idents_of_inr in Hids. apply Forall2_fmap_l.
    eapply Forall2_impl; [exact Hids|]. intros a g Hg. simpl.
    by rewrite strip_strip. }
  destruct (sig_args s) as [|a r] eqn:Ea; [done|].
  assert (map Py.strip (a :: map (cons 32) r) = a :: r) as Hstrip.
  { apply Forall_cons in Hall as [(Ha & _) Hrest]. cbn [map]. f_equal; [done|].
    rewrite <- list_fmap_compose. rewrite <- (list_fmap_id r) at 2.
    apply Forall_fmap_ext. eapply Forall_impl; [exact Hrest|].
    intros x (Hx & _). simpl. by rewrite strip_cons_space. }
  exists (Signature (sig_name s) (a :: r) (sig_idents s)
            (omap Re.re_path_info_search (a :: map (cons 32) r))).
  split; [|done]. rewrite join_comma_space, <- Hstrip.
  change (lit "(" ++ ?x) with (lparen :: x).
  change (lit ")") with (rparen :: []).
  apply parse_statement_assembled; try done.
  - apply Forall_cons in Hall as [(_ & _ & Ha) Hrest].
    constructor; [done|]. apply Forall_fmap.
    eapply Forall_impl; [exact Hrest|]. intros x (_ & _ & Hc & Hlp & Hrp).
    simpl. rewrite !not_elem_of_cons. by repeat split.
  - apply not_elem_of_nil.
  - apply Forall2_cons_inv_l in Hids as (g & gs & Hg & Hgs & ->).
    constructor; [done|]. apply Forall2_fmap_l.
    eapply Forall2_impl; [exact Hgs|]. intros x y Hxy. simpl.
    by rewrite strip_cons_space.
Qed.

Lemma emitted_declaration_reparses_witness :
  ∃ s',
    parse_statement (lit "f" ++ lit "("
                     ++ Py.join (lit ", ") [lit "int a"; lit "char *b"]
                     ++ lit ")")
    = inr s' ∧
    sig_name s' = lit "f" ∧
    sig_args s' = [lit "int a"; lit "char *b"] ∧
    sig_idents s' = [lit "a"; lit "b"].
Proof.
  apply (emitted_declaration_reparses (lit "f( int a ,char *b )")
           (Signature (lit "f") [lit "int a"; lit "char *b"]
              [lit "a"; lit "b"] [])).
  vm_compute. reflexivity.
Defined.

(** ** Line breaks *)

Local Ltac split_scrutinee :=
  repeat match goal with
         | |- context [match ?v with _ => _ end] => is_var v; destruct v
         end.

Lemma universal_newlines_cons x r :
  universal_newlines (x :: r) =
    if x =? 13 then
      match r with
      | y :: _ =>
          if y =? 10 then universal_newlines r else 10 :: universal_newlines r
      | [] => 10 :: universal_newlines r
      end
    else x :: universal_newlines r.
Proof.
  destruct (N.eqb_spec x 13) as [->|Hx].
  - destruct r as [|y r]; [done|].
    destruct (N.eqb_spec y 10) as [->|Hy]; [done|].
    change (universal_newlines (13 :: y :: r))
      with (match y with
            | 10 => universal_newlines (y :: r)
            | _ => 10 :: universal_newlines (y :: r)
            end).
    split_scrutinee; done.
  - change (universal_newlines (x :: r))
      with (match x with
            | 13 =>
                match r with
                | 10 :: _ => universal_newlines r
                | _ => 10 :: universal_newlines r
                end
            | _ => x :: universal_newlines r
            end).
    split_scrutinee; done.
Qed.

Lemma remove_line_breaks raw :
  Py.remove_char 10 (universal_newlines raw)
  = Py.remove_char 10 (Py.remove_char 13 raw).
Proof.
  induction raw as [|x r IH]; [done|].
  rewrite universal_newlines_cons. cbn [Py.remove_char].
  destruct (x =? 13) eqn:Hx.
  - destruct r as [|y r]; [done|].
    destruct (y =? 10) eqn:Hy; [done|].
    cbn [Py.remove_char]. by rewrite N.eqb_refl.
  - cbn [Py.remove_char]. destruct (x =? 10); by rewrite IH.
Qed.

Lemma run_agrees (lines : list str) (fs1 fs2 : gmap string str) name :
  fs1 !! name = fs2 !! name →
  let run :=
    with_open_w ops_h
      (process lines VfsStructDecl default_prefix default_qual) >>>
    with_open_w vfs_h
      (process lines VfsPrototype default_prefix default_qual) >>>
    with_open_w dispatch_h
      (process lines VfsDefine default_prefix default_qual) in
  (run fs1).2 = (run fs2).2 ∧ (run fs1).1 !! name = (run fs2).1 !! name.
Proof.
  intros Hname run. unfold run, bind.
  rewrite !(with_open_w_run ops_h).
  destruct (process lines VfsStructDecl _ _ []) as [o1 [e1|[]]]; cbn [fst snd].
  { split; [done|]. rewrite !lookup_insert. by case_decide. }
  rewrite !(with_open_w_run vfs_h).
  destruct (process lines VfsPrototype _ _ []) as [o2 [e2|[]]]; cbn [fst snd].
  { split; [done|]. rewrite !lookup_insert. by repeat case_decide. }
  rewrite !(with_open_w_run dispatch_h). cbn [fst snd].
  split; [done|]. rewrite !lookup_insert. by repeat case_decide.
Qed.

(** X15: line breaks in the definition file are insignificant, whatever
    their style: two definition files that are equal once every carriage
    return and every line feed is deleted make the run end the same way and
    write the same output files. *)
Theorem line_breaks_insignificant (fs : gmap string str) raw raw' name :
  Py.remove_char 10 (Py.remove_char 13 raw)
  = Py.remove_char 10 (Py.remove_char 13 raw') →
  name ≠ filename →
  (main (<[filename := raw]> fs)).2 = (main (<[filename := raw']> fs)).2 ∧
  (main (<[filename := raw]> fs)).1 !! name
  = (main (<[filename := raw']> fs)).1 !! name.
Proof.
  intros Heq Hname.
  rewrite (main_read (<[filename := raw]> fs) raw)
    by apply lookup_insert_eq.
  rewrite (main_read (<[filename := raw']> fs) raw')
    by apply lookup_insert_eq.
  unfold lines_of. rewrite !remove_line_breaks, Heq.
  apply run_agrees. by rewrite !lookup_insert_ne.
Qed.

Lemma line_breaks_insignificant_witness :
  (main (<[filename := lit "f(int a);" ++ [13; 10] ++ lit "g(int" ++ NL
                        ++ lit " b);" ++ [13]]> ∅)).2
  = (main (<[filename := lit "f(int a);g(int b);"]> ∅)).2 ∧
  (main (<[filename := lit "f(int a);" ++ [13; 10] ++ lit "g(int" ++ NL
                        ++ lit " b);" ++ [13]]> ∅)).1 !! dispatch_h
  = (main (<[filename := lit "f(int a);g(int b);"]> ∅)).1 !! dispatch_h.
Proof.
  apply line_breaks_insignificant.
  - vm_compute. reflexivity.
  - discriminate.
Defined.

(** ** Prefix and padding *)

(** X16: when every statement parses, the prototype emission with any
    prefix writes the header and then one line [int <prefix><name>(<args>);]
    per signature, in order, with no enclosing braces; the qualifier plays no
    part in it. *)
Theorem prototype_list lines sigs prefix qual out :
  signatures lines = inr sigs →
  process lines VfsPrototype prefix qual out =
    (out ++ header
         ++ concat (map (λ s, lit "int " ++ prefix ++ sig_name s ++ lit "("
                              ++ Py.join (lit ", ") (sig_args s)
                              ++ lit ");" ++ NL) sigs),
     inr tt).
Proof.
  intros Hs. rewrite (process_declarations _ sigs) by done.
  cbn [opening closing declaration]. by rewrite app_nil_l, app_nil_r.
Qed.

Lemma prototype_list_witness :
  process [close_stmt; path_link_stmt] VfsPrototype (lit "wasi_host_")
    (lit "extern") []
  = (header
       ++ lit "int wasi_host_close(struct path_info *fdinfo);" ++ NL
       ++ lit "int wasi_host_path_link(struct path_info *old, struct path_info *new);"
       ++ NL,
     inr tt).
Proof.
  apply (prototype_list [close_stmt; path_link_stmt]
           [Signature (lit "close") [lit "struct path_info *fdinfo"]
              [lit "fdinfo"] [lit "fdinfo"];
            Signature (lit "path_link")
              [lit "struct path_info *old"; lit "struct path_info *new"]
              [lit "old"; lit "new"] [lit "old"; lit "new"]]
           (lit "wasi_host_") (lit "extern") []).
  vm_compute. reflexivity.
Defined.

Lemma lstrip_app_blank b s : blank b → Py.lstrip (b ++ s) = Py.lstrip s.
Proof. induction 1 as [|y b Hy _ IH]; simpl; [done|]. by rewrite Hy. Qed.

Lemma rstrip_app_blank s r : blank r → Py.rstrip (s ++ r) = Py.rstrip s.
Proof.
  intros Hr. unfold Py.rstrip. rewrite rev_app_distr.
  rewrite lstrip_app_blank; [done | by apply Forall_rev].
Qed.

Lemma strip_padding l s r :
  blank l → blank r → Py.strip (l ++ s ++ r) = Py.strip s.
Proof.
  intros Hl Hr. unfold Py.strip. rewrite lstrip_app_blank by done.
  destruct (lstrip_decomp s) as (b & Hs & Hb).
  destruct (Py.lstrip s) as [|c t] eqn:E.
  - rewrite app_nil_r in Hs. subst b.
    rewrite lstrip_blank; [done|]. by apply Forall_app.
  - pose proof (lstrip_head _ _ _ E) as Hc.
    rewrite Hs at 1. rewrite <- app_assoc. cbn [app].
    rewrite lstrip_blank_app by done.
    change (c :: t ++ r) with ((c :: t) ++ r). by rewrite rstrip_app_blank.
Qed.

(** X17: blanks before and after a statement are insignificant: in every
    mode the statement is processed as it is without them. *)
Theorem statement_padding mode prefix qual l line r out :
  blank l → blank r →
  process_line mode prefix qual (l ++ line ++ r) out
  = process_line mode prefix qual line out.
Proof.
  intros Hl Hr. unfold process_line. by rewrite strip_padding.
Qed.

Lemma statement_padding_witness :
  process_line VfsDefine default_prefix default_qual
    (lit "  " ++ close_stmt ++ TAB) []
  = process_line VfsDefine default_prefix default_qual close_stmt [].
Proof.
  apply statement_padding; repeat constructor.
Defined.
